(** * schedule-task-mcp: a shallow embedding of the trigger validation,
      the SQLite task store and the scheduler core, with the properties
      of the specification stated and proved over it.

    Conventions of the embedding.

    - A JavaScript [number] is the rational it stands for ([Q]): the
      value of a double.  A sum, a product and a quotient of numbers are
      the exact results rounded to the nearest double, a tie going to the
      even mantissa ([round_double]).  NaN, the two infinities and the
      overflow of doubles are outside the model.
    - A [Date] is its time value in milliseconds since the epoch ([Z]), or
      [None] for an Invalid Date.  A date made from a number is invalid
      when the number is more than 8.64e15 away from zero.
    - Timestamps are stored the way the program stores them, as strings.
      The built-ins that read and print them ([new Date(s)],
      [toISOString]), [Number(s)], [String(n)] for a large [n],
      [String.prototype.trim] and the two cron libraries are operations
      of the host ([Host]); every result below holds for any host.
    - A thrown exception is the [Throw] case of [Res]. *)

From Stdlib Require Import ZArith QArith Qround Qabs String Ascii List Bool.
From Stdlib Require Import Lia Lqa.
From Stdlib Require Import DecimalString Permutation.
Import ListNotations.

Local Open Scope string_scope.
Local Open Scope Z_scope.

(** ** JavaScript values and exceptions *)

#[local] Set Warnings "-register-all".

Inductive JsValue : Type :=
| JsUndefined
| JsNull
| JsBool (b : bool)
| JsNumber (q : Q)
| JsString (s : string)
| JsArray (items : list JsValue)
| JsObject (fields : list (string * JsValue)).

(** An [Error] object: [name], [message] and the optional [code] that the
    MCP SDK attaches to its errors. *)
Record JsError : Type := mkJsError {
  err_name : string;
  err_message : string;
  err_code : option Z
}.

(** [new Error(msg)] *)
Definition Error (msg : string) : JsError :=
  {| err_name := "Error"; err_message := msg; err_code := None |}.

(** [new RangeError("Invalid time value")], thrown by [toISOString] on an
    Invalid Date. *)
Definition RangeError_invalid_time : JsError :=
  {| err_name := "RangeError"; err_message := "Invalid time value";
     err_code := None |}.

Inductive Res (A : Type) : Type :=
| Ok (a : A)
| Throw (e : JsError).

Arguments Ok {A} a.
Arguments Throw {A} e.

Definition res_bind {A B : Type} (m : Res A) (k : A -> Res B) : Res B :=
  match m with
  | Ok a => k a
  | Throw e => Throw e
  end.

Declare Scope res_scope.
Delimit Scope res_scope with res.
Notation "x <- m ;; k" := (res_bind m (fun x => k))
  (at level 61, m at next level, right associativity) : res_scope.

Definition is_ok {A : Type} (m : Res A) : bool :=
  match m with Ok _ => true | Throw _ => false end.

(** ** Numbers *)

Definition Qltb (x y : Q) : bool := negb (Qle_bool y x).

(** Truthiness of a number: every number but 0 (and NaN) is truthy. *)
Definition truthy_number (q : Q) : bool := negb (Qeq_bool q 0).

(** Truthiness of a string: every string but the empty one. *)
Definition truthy_string (s : string) : bool :=
  match s with EmptyString => false | _ => true end.

Definition truthy_opt_string (o : option string) : bool :=
  match o with Some s => truthy_string s | None => false end.

(** [ToIntegerOrInfinity]: truncation toward zero. *)
Definition ToIntegerOrInfinity (q : Q) : Z :=
  if Qltb q 0 then Qceiling q else Qfloor q.

(** [Math.round]: the nearest integer, a tie going up. *)
Definition Math_round (q : Q) : Z := Qfloor (q + (1 # 2)).

(** [Math.max] on two numbers. *)
Definition Math_max (x y : Q) : Q := if Qle_bool x y then y else x.

(** *** Arithmetic of doubles *)

(** The integer nearest to a rational, a tie going to the even one *)
Definition round_half_even (q : Q) : Z :=
  let f := Qfloor q in
  match (q - inject_Z f ?= 1 # 2)%Q with
  | Lt => f
  | Gt => f + 1
  | Eq => if Z.even f then f else f + 1
  end.

(** The greatest [e] with [2^e <= n / d], for positive [n] and [d] *)
Definition binade (n d : Z) : Z :=
  let e := Z.log2 n - Z.log2 d in
  if (if 0 <=? e then 2 ^ e * d <=? n else d <=? 2 ^ (- e) * n)
  then e else e - 1.

(** The double nearest to a rational: 53 bits of mantissa at the binade
    of the number (the binade of the subnormals from 2^-1022 down), a tie
    going to the even mantissa. *)
Definition round_double (q : Q) : Q :=
  let q := Qred q in
  let n := Z.abs (Qnum q) in
  let d := Zpos (Qden q) in
  if n =? 0 then 0%Q
  else
    let e := Z.max (binade n d) (-1022) in
    let magnitude :=
      if 52 <=? e then
        inject_Z
          (round_half_even (Qmake n (Qden q) / inject_Z (2 ^ (e - 52)))
           * 2 ^ (e - 52))
      else
        Qred (inject_Z
                (round_half_even (Qmake n (Qden q) * inject_Z (2 ^ (52 - e))))
              / inject_Z (2 ^ (52 - e)))
    in
    if 0 <=? Qnum q then magnitude else (- magnitude)%Q.

(** [x + y], [x * y] and [x / y] on numbers *)
Definition Number_add (x y : Q) : Q := round_double (x + y).
Definition Number_mul (x y : Q) : Q := round_double (x * y).
Definition Number_div (x y : Q) : Q := round_double (x / y).

(** The milliseconds of a duration field, as the source writes the
    products: [v * 1000], [v * 60 * 1000], [v * 60 * 60 * 1000] and
    [v * 24 * 60 * 60 * 1000], each taken from the left. *)
Definition seconds_ms (v : Q) : Q := Number_mul v 1000.
Definition minutes_ms (v : Q) : Q := Number_mul (Number_mul v 60) 1000.
Definition hours_ms (v : Q) : Q :=
  Number_mul (Number_mul (Number_mul v 60) 60) 1000.
Definition days_ms (v : Q) : Q :=
  Number_mul (Number_mul (Number_mul (Number_mul v 24) 60) 60) 1000.

(** ** Dates *)

(** The time value of a [Date]; [None] is an Invalid Date (NaN). *)
Definition Date : Type := option Z.

(** [new Date(value)] on a number ([TimeClip]): an Invalid Date when the
    number is more than 8.64e15 away from zero, and the number cut to a
    whole number of milliseconds otherwise. *)
Definition Date_of_number (q : Q) : Date :=
  if Qltb 8640000000000000 (Qabs q) then None
  else Some (ToIntegerOrInfinity q).

(** [a > b] and [a <= b] on dates: both are false when a side is NaN. *)
Definition Date_gt (a b : Date) : bool :=
  match a, b with
  | Some x, Some y => y <? x
  | _, _ => false
  end.

Definition Date_le (a b : Date) : bool :=
  match a, b with
  | Some x, Some y => x <=? y
  | _, _ => false
  end.

(** ** Trigger configurations (index.ts) *)

Record IntervalTriggerConfig : Type := mkInterval {
  seconds : option Q;
  minutes : option Q;
  hours : option Q;
  days : option Q
}.

Record CronTriggerConfig : Type := mkCron {
  expression : string
}.

Record DateTriggerConfig : Type := mkDate {
  run_date : string
}.

Inductive SupportedTriggerConfig : Type :=
| IntervalConfig (c : IntervalTriggerConfig)
| CronConfig (c : CronTriggerConfig)
| DateConfig (c : DateTriggerConfig).

Inductive SupportedTriggerType : Type := interval | cron | date.

Definition SupportedTriggerType_eqb (a b : SupportedTriggerType) : bool :=
  match a, b with
  | interval, interval | cron, cron | date, date => true
  | _, _ => false
  end.

(** ** The host: built-ins and libraries the program calls *)

Class Host : Type := {
  (** [new Date(s).getTime()], [None] when the string does not parse *)
  Date_parse : string -> option Z;
  (** [toISOString] of a valid time value *)
  Date_iso : Z -> string;
  (** [Number(s)], [None] for NaN *)
  StringToNumber : string -> option Q;
  (** [String(n)] for a whole double of magnitude above 2^53: the fewest
      digits that read back as the double, followed by zeros below 10^21
      and by an exponent from there on *)
  Number_toString_large : Z -> string;
  (** [s.trim()] *)
  trim : string -> string;
  (** [cron.validate(expression)] of node-cron *)
  cron_validate : string -> bool;
  (** [cronParser.parseExpression(e, {currentDate, tz}).next().toDate()],
      [None] when the parser throws *)
  cron_next : string -> Z -> option Z;
  (** [JSON.stringify] and [JSON.parse] ([None] when it throws) on a
      trigger configuration and on any other value *)
  stringify_config : SupportedTriggerConfig -> string;
  parse_config : string -> option SupportedTriggerConfig;
  JSON_stringify : JsValue -> string;
  JSON_parse : string -> option JsValue
}.

(** [new Date(x)] for a property that is a string or missing. *)
Definition Date_of_opt_string `{Host} (o : option string) : Date :=
  match o with
  | Some s => Date_parse s
  | None => None
  end.

(** [d.toISOString()] *)
Definition toISOString `{Host} (d : Date) : Res string :=
  match d with
  | Some t => Ok (Date_iso t)
  | None => Throw RangeError_invalid_time
  end.

(** [Number.prototype.toString] on an integer-valued double: its decimal
    numeral up to 2^53, where every whole number is a double and no
    shorter numeral reads back as it. *)
Definition Number_toString `{Host} (n : Z) : string :=
  if Z.abs n <=? 2 ^ 53 then NilZero.string_of_int (Z.to_int n)
  else Number_toString_large n.

(** ** Plain objects as ordered property lists

    The properties of an object in the order of [Object.keys].  The keys
    of an object are distinct; the operations below read the first entry
    of a key and delete every entry of it. *)

Definition JsObj : Type := list (string * JsValue).

(** [Object.keys(o)] *)
Definition Object_keys (o : JsObj) : list string := map fst o.

(** [key in o] *)
Definition js_in (key : string) (o : JsObj) : bool :=
  existsb (String.eqb key) (Object_keys o).

(** [o[key]] *)
Definition js_get (key : string) (o : JsObj) : JsValue :=
  match find (fun kv => String.eqb key (fst kv)) o with
  | Some kv => snd kv
  | None => JsUndefined
  end.

(** [delete o[key]] *)
Definition js_delete (key : string) (o : JsObj) : JsObj :=
  filter (fun kv => negb (String.eqb key (fst kv))) o.

Definition is_undefined (v : JsValue) : bool :=
  match v with JsUndefined => true | _ => false end.

(** Truthiness of a value. *)
Definition truthy (v : JsValue) : bool :=
  match v with
  | JsUndefined | JsNull => false
  | JsBool b => b
  | JsNumber q => truthy_number q
  | JsString s => truthy_string s
  | JsArray _ | JsObject _ => true
  end.

(** ** Validation of trigger configurations (index.ts) *)

Section Validation.

Context `{Host}.

Local Open Scope res_scope.

Definition ensureNumber (value : JsValue) (field : string) : Res Q :=
  match value with
  | JsNumber q => Ok q
  | JsString s =>
      if (0 <? String.length (trim s))%nat then
        match StringToNumber s with
        | Some num => Ok num
        | None => Throw (Error ("Invalid numeric value for " ++ field))
        end
      else Throw (Error ("Invalid numeric value for " ++ field))
  | _ => Throw (Error ("Invalid numeric value for " ++ field))
  end.

Definition allowedKeys : list string :=
  ["seconds"; "minutes"; "hours"; "days"].

(** [allowedKeys.includes(key)] *)
Definition includes (keys : list string) (key : string) : bool :=
  existsb (String.eqb key) keys.

(** One of the four blocks of [validateIntervalConfig]: when the key is
    present its value must be a number of at least 0.001. *)
Definition intervalField (rawConfig : JsObj) (key : string) (message : string)
  : Res (option Q) :=
  if js_in key rawConfig then
    value <- ensureNumber (js_get key rawConfig) ("trigger_config." ++ key) ;;
    if Qltb value 0.001 then Throw (Error message) else Ok (Some value)
  else Ok None.

(** [totalMs += value * ...] for a field that was provided; [ms] is the
    product the source writes for the field. *)
Definition addMs (totalMs : Q) (value : option Q) (ms : Q -> Q) : Q :=
  match value with
  | Some v => Number_add totalMs (ms v)
  | None => totalMs
  end.

Definition validateIntervalConfig (rawConfig : JsObj)
  : Res IntervalTriggerConfig :=
  match find (fun key => negb (includes allowedKeys key))
             (Object_keys rawConfig) with
  | Some key => Throw (Error ("Unknown interval option: " ++ key))
  | None =>
      s <- intervalField rawConfig "seconds" "Seconds must be greater than 0" ;;
      m <- intervalField rawConfig "minutes" "Minutes must be greater than 0" ;;
      h <- intervalField rawConfig "hours" "Hours must be greater than 0" ;;
      d <- intervalField rawConfig "days" "Days must be greater than 0" ;;
      let totalMs :=
        addMs (addMs (addMs (addMs 0 s seconds_ms) m minutes_ms) h hours_ms)
              d days_ms in
      if Qle_bool totalMs 0 then
        Throw (Error
          "Interval trigger requires at least one positive duration field")
      else Ok {| seconds := s; minutes := m; hours := h; days := d |}
  end.

Definition validateCronConfig (rawConfig : JsObj) : Res CronTriggerConfig :=
  match js_get "expression" rawConfig with
  | JsString e =>
      if (String.length (trim e) =? 0)%nat then
        Throw (Error "Cron trigger requires a non-empty expression")
      else if negb (cron_validate e) then
        Throw (Error ("Invalid cron expression: " ++ e))
      else Ok {| expression := e |}
  | _ => Throw (Error "Cron trigger requires a non-empty expression")
  end.

Definition delayFields : list (string * Q) :=
  [("delay_seconds", 1000%Q); ("delay_minutes", (60 * 1000)%Q);
   ("delay_hours", (60 * 60 * 1000)%Q);
   ("delay_days", (24 * 60 * 60 * 1000)%Q)].

(** The loop over [delayFields]: it sums the delays that are present and
    deletes their keys from the copy of the configuration. *)
Fixpoint sumDelays (fields : list (string * Q)) (config : JsObj) (delayMs : Q)
  : Res (JsObj * Q) :=
  match fields with
  | [] => Ok (config, delayMs)
  | (field, multiplier) :: rest =>
      if negb (is_undefined (js_get field config)) then
        value <- ensureNumber (js_get field config)
                              ("trigger_config." ++ field) ;;
        if Qltb value 0 then Throw (Error (field ++ " must be >= 0"))
        else sumDelays rest (js_delete field config)
                       (Number_add delayMs (Number_mul value multiplier))
      else sumDelays rest config delayMs
  end.

(** [now] is the value of the [new Date()] the function opens with.
    [runDate] is undefined ([None]) or a date, which may be invalid. *)
Definition validateDateConfig (rawConfig : JsObj) (now : Z)
  : Res DateTriggerConfig :=
  cd <- sumDelays delayFields rawConfig 0 ;;
  let config := fst cd in
  let delayMs := snd cd in
  runDate <-
    match js_get "run_date" config with
    | JsString s =>
        if (0 <? String.length (trim s))%nat then
          match Date_parse s with
          | Some t => Ok (Some (Some t))
          | None =>
              Throw (Error ("Invalid ISO date string for run_date: " ++ s))
          end
        else Ok None
    | _ => Ok None
    end ;;
  let runDate : option Date :=
    match runDate with
    | None =>
        if Qltb 0 delayMs
        then Some (Date_of_number (Number_add (inject_Z now) delayMs))
        else None
    | Some d => Some d
    end in
  match runDate with
  | None =>
      Throw (Error
        "Date trigger requires either run_date or delay fields (delay_seconds/minutes/hours/days)")
  | Some d =>
      let runDate :=
        if Date_le d (Some now) then
          if Qltb 0 delayMs
          then Date_of_number (Number_add (inject_Z now) delayMs)
          else Date_of_number (Number_add (inject_Z now) 1000)
        else d in
      iso <- toISOString runDate ;;
      Ok {| run_date := iso |}
  end.

(** [Object.keys] of an array are its indices. *)
Definition array_entries (items : list JsValue) : JsObj :=
  combine (map (fun i => NilZero.string_of_uint (Nat.to_uint i))
               (seq 0 (length items)))
          items.

End Validation.

(** ** The task store (storage.ts) *)

Inductive TaskStatus : Type := scheduled | running | paused | completed | error.

Definition TaskStatus_eqb (a b : TaskStatus) : bool :=
  match a, b with
  | scheduled, scheduled | running, running | paused, paused
  | completed, completed | error, error => true
  | _, _ => false
  end.

(** The outcome recorded in a history entry: ['success' | 'error']. *)
Inductive HistoryStatus : Type := run_success | run_error.

(** [last_status]: ['success' | 'error' | 'running']. *)
Inductive LastStatus : Type := last_success | last_error | last_running.

Record TaskHistoryEntry : Type := mkEntry {
  run_at : string;
  entry_status : HistoryStatus;
  message : option string
}.

(** [TaskRecord].  [name] is set by [createTask] and read by [runTask]; the
    store has no column for it. *)
Record TaskRecord : Type := mkTask {
  id : string;
  name : option string;
  trigger_type : SupportedTriggerType;
  trigger_config : SupportedTriggerConfig;
  mcp_server : option string;
  mcp_tool : option string;
  mcp_arguments : option JsValue;
  agent_prompt : option string;
  enabled : bool;
  status : TaskStatus;
  created_at : string;
  updated_at : string;
  last_run : option string;
  last_status : option LastStatus;
  last_message : option string;
  next_run : option string;
  history : option (list TaskHistoryEntry)
}.

(** A row of [tasks] *)
Record TaskRow : Type := mkRow {
  row_id : string;
  row_trigger_type : SupportedTriggerType;
  row_trigger_config : string;
  row_mcp_server : option string;
  row_mcp_tool : option string;
  row_mcp_arguments : option string;
  row_agent_prompt : option string;
  row_enabled : Z;
  row_status : TaskStatus;
  row_created_at : string;
  row_updated_at : string;
  row_last_run : option string;
  row_last_status : option LastStatus;
  row_last_message : option string;
  row_next_run : option string
}.

(** A row of [task_history]; [hist_id] is the AUTOINCREMENT key. *)
Record HistoryRow : Type := mkHistoryRow {
  hist_id : Z;
  task_id : string;
  hist_run_at : string;
  hist_status : HistoryStatus;
  hist_message : option string
}.

(** The database: both tables in rowid order, and the last key handed out
    for [task_history]. *)
Record Store : Type := mkStore {
  tasks : list TaskRow;
  task_history : list HistoryRow;
  history_seq : Z
}.

Definition empty_store : Store :=
  {| tasks := []; task_history := []; history_seq := 0 |}.

(** The patch of [updateStatus]: a field that is absent (or [undefined])
    is [None]. *)
Record StatusPatch : Type := mkPatch {
  patch_last_run : option string;
  patch_last_status : option LastStatus;
  patch_last_message : option string;
  patch_next_run : option string
}.

Section Storage.

Context `{Host}.

(** The values bound to the INSERT of [upsert] *)
Definition row_of_task (task : TaskRecord) : TaskRow :=
  {| row_id := id task;
     row_trigger_type := trigger_type task;
     row_trigger_config := stringify_config (trigger_config task);
     row_mcp_server := mcp_server task;
     row_mcp_tool := mcp_tool task;
     row_mcp_arguments :=
       match mcp_arguments task with
       | Some v => if truthy v then Some (JSON_stringify v) else None
       | None => None
       end;
     row_agent_prompt := agent_prompt task;
     row_enabled := if enabled task then 1 else 0;
     row_status := status task;
     row_created_at := created_at task;
     row_updated_at := updated_at task;
     row_last_run := last_run task;
     row_last_status := last_status task;
     row_last_message := last_message task;
     row_next_run := next_run task |}.

(** [INSERT ... ON CONFLICT(id) DO UPDATE SET ...]: the row with this key
    is overwritten where it is, a new key is appended. *)
Definition insert_or_update (row : TaskRow) (rows : list TaskRow)
  : list TaskRow :=
  if existsb (fun r => String.eqb (row_id r) (row_id row)) rows then
    map (fun r => if String.eqb (row_id r) (row_id row) then row else r) rows
  else rows ++ [row].

(** [DELETE FROM task_history WHERE task_id = ?] *)
Definition delete_history (taskId : string) (rows : list HistoryRow)
  : list HistoryRow :=
  filter (fun r => negb (String.eqb (task_id r) taskId)) rows.

(** The loop of [insertHistory.run] over the entries, in their order. *)
Fixpoint insert_history (taskId : string) (entries : list TaskHistoryEntry)
    (rows : list HistoryRow) (seq : Z) : list HistoryRow * Z :=
  match entries with
  | [] => (rows, seq)
  | entry :: rest =>
      insert_history taskId rest
        (rows ++ [{| hist_id := seq + 1; task_id := taskId;
                     hist_run_at := run_at entry;
                     hist_status := entry_status entry;
                     hist_message := message entry |}])
        (seq + 1)
  end.

(** [upsert(task)].  The statements of the transaction are taken to
    succeed: the ROLLBACK branch is not modelled. *)
Definition upsert (db : Store) (task : TaskRecord) : Store :=
  let tasks' := insert_or_update (row_of_task task) (tasks db) in
  match history task with
  | Some entries =>
      let '(rows, seq) :=
        insert_history (id task) entries
          (delete_history (id task) (task_history db)) (history_seq db) in
      {| tasks := tasks'; task_history := rows; history_seq := seq |}
  | None =>
      {| tasks := tasks'; task_history := task_history db;
         history_seq := history_seq db |}
  end.

(** [ORDER BY run_at DESC]: the text is compared byte by byte; rows with
    the same [run_at] stay in rowid order. *)
Fixpoint insert_by_run_at (r : HistoryRow) (sorted : list HistoryRow)
  : list HistoryRow :=
  match sorted with
  | [] => [r]
  | y :: ys =>
      if String.ltb (hist_run_at r) (hist_run_at y)
      then y :: insert_by_run_at r ys
      else r :: y :: ys
  end.

Definition order_by_run_at_desc (rows : list HistoryRow) : list HistoryRow :=
  fold_right insert_by_run_at [] rows.

(** [ORDER BY created_at ASC], with the same convention. *)
Fixpoint insert_by_created_at (r : TaskRow) (sorted : list TaskRow)
  : list TaskRow :=
  match sorted with
  | [] => [r]
  | y :: ys =>
      if String.ltb (row_created_at y) (row_created_at r)
      then y :: insert_by_created_at r ys
      else r :: y :: ys
  end.

Definition order_by_created_at (rows : list TaskRow) : list TaskRow :=
  fold_right insert_by_created_at [] rows.

Definition entry_of_row (r : HistoryRow) : TaskHistoryEntry :=
  {| run_at := hist_run_at r; entry_status := hist_status r;
     message := hist_message r |}.

(** [loadHistory(taskIds)]: the map from a task id to its entries, newest
    first.  A key is in the map when a selected row carries it. *)
Definition loadHistory (db : Store) (taskIds : list string)
  : string -> option (list TaskHistoryEntry) :=
  fun key =>
    match taskIds with
    | [] => None
    | _ =>
        let historyRows :=
          order_by_run_at_desc
            (filter (fun r => existsb (String.eqb (task_id r)) taskIds)
                    (task_history db)) in
        match filter (fun r => String.eqb (task_id r) key) historyRows with
        | [] => None
        | rows => Some (map entry_of_row rows)
        end
    end.

(** [safeParse(value, fallback)] on a column that may be NULL *)
Definition safeParse {A : Type} (parse : string -> option A)
    (value : option string) (fallback : A) : A :=
  match value with
  | Some text =>
      if truthy_string text then
        match parse text with
        | Some v => v
        | None => fallback
        end
      else fallback
  | None => fallback
  end.

(** The empty object [{}] read as a trigger configuration: every property
    is undefined. *)
Definition empty_config : SupportedTriggerConfig :=
  IntervalConfig
    {| seconds := None; minutes := None; hours := None; days := None |}.

Definition mapRowToTask (row : TaskRow) (history : list TaskHistoryEntry)
  : TaskRecord :=
  {| id := row_id row;
     name := None;
     trigger_type := row_trigger_type row;
     trigger_config :=
       safeParse parse_config (Some (row_trigger_config row)) empty_config;
     mcp_server := row_mcp_server row;
     mcp_tool := row_mcp_tool row;
     mcp_arguments :=
       safeParse (fun text => option_map Some (JSON_parse text))
                 (row_mcp_arguments row) None;
     agent_prompt := row_agent_prompt row;
     enabled := negb (row_enabled row =? 0);
     status := row_status row;
     created_at := row_created_at row;
     updated_at := row_updated_at row;
     last_run := row_last_run row;
     last_status := row_last_status row;
     last_message := row_last_message row;
     next_run := row_next_run row;
     history := Some history |}.

Definition find_row (db : Store) (taskId : string) : option TaskRow :=
  find (fun r => String.eqb (row_id r) taskId) (tasks db).

Definition get (db : Store) (taskId : string) : option TaskRecord :=
  match find_row db taskId with
  | None => None
  | Some row =>
      let historyMap := loadHistory db [taskId] in
      Some (mapRowToTask row
              (match historyMap taskId with Some h => h | None => [] end))
  end.

Definition list_tasks (db : Store) : list TaskRecord :=
  let rows := order_by_created_at (tasks db) in
  match rows with
  | [] => []
  | _ =>
      let historyMap := loadHistory db (map row_id rows) in
      map (fun row =>
             mapRowToTask row
               (match historyMap (row_id row) with
                | Some h => h
                | None => []
                end))
          rows
  end.

(** [clearHistory(id)]; [now] is the reading of the clock. *)
Definition clearHistory (db : Store) (taskId : string) (now : Z)
  : Store * option TaskRecord :=
  let db' :=
    {| tasks :=
         map (fun r =>
                if String.eqb (row_id r) taskId then
                  {| row_id := row_id r;
                     row_trigger_type := row_trigger_type r;
                     row_trigger_config := row_trigger_config r;
                     row_mcp_server := row_mcp_server r;
                     row_mcp_tool := row_mcp_tool r;
                     row_mcp_arguments := row_mcp_arguments r;
                     row_agent_prompt := row_agent_prompt r;
                     row_enabled := row_enabled r;
                     row_status := row_status r;
                     row_created_at := row_created_at r;
                     row_updated_at := Date_iso now;
                     row_last_run := None;
                     row_last_status := None;
                     row_last_message := None;
                     row_next_run := row_next_run r |}
                else r)
             (tasks db);
       task_history := delete_history taskId (task_history db);
       history_seq := history_seq db |} in
  (db', get db' taskId).

(** [delete(id)] *)
Definition delete (db : Store) (taskId : string) : Store * bool :=
  ({| tasks :=
        filter (fun r => negb (String.eqb (row_id r) taskId)) (tasks db);
      task_history := delete_history taskId (task_history db);
      history_seq := history_seq db |},
   existsb (fun r => String.eqb (row_id r) taskId) (tasks db)).

Definition is_some {A : Type} (o : option A) : bool :=
  match o with Some _ => true | None => false end.

Definition or_else {A : Type} (new old : option A) : option A :=
  match new with Some v => Some v | None => old end.

(** The number of [fields] that [updateStatus] collects. *)
Definition patch_fields (p : StatusPatch) : nat :=
  (if is_some (patch_last_run p) then 1 else 0) +
  (if is_some (patch_last_status p) then 1 else 0) +
  (if is_some (patch_last_message p) then 1 else 0) +
  (if is_some (patch_next_run p) then 1 else 0).

Definition updateStatus (db : Store) (taskId : string) (p : StatusPatch)
    (now : Z) : Store :=
  if (patch_fields p =? 0)%nat then db
  else
    {| tasks :=
         map (fun r =>
                if String.eqb (row_id r) taskId then
                  {| row_id := row_id r;
                     row_trigger_type := row_trigger_type r;
                     row_trigger_config := row_trigger_config r;
                     row_mcp_server := row_mcp_server r;
                     row_mcp_tool := row_mcp_tool r;
                     row_mcp_arguments := row_mcp_arguments r;
                     row_agent_prompt := row_agent_prompt r;
                     row_enabled := row_enabled r;
                     row_status := row_status r;
                     row_created_at := row_created_at r;
                     row_updated_at := Date_iso now;
                     row_last_run :=
                       or_else (patch_last_run p) (row_last_run r);
                     row_last_status :=
                       or_else (patch_last_status p) (row_last_status r);
                     row_last_message :=
                       or_else (patch_last_message p) (row_last_message r);
                     row_next_run :=
                       or_else (patch_next_run p) (row_next_run r) |}
                else r)
             (tasks db);
       task_history := task_history db;
       history_seq := history_seq db |}.

End Storage.

(** ** Assignments to the fields of a task *)

Definition set_status (task : TaskRecord) (v : TaskStatus)
  : TaskRecord :=
  {| id := id task; name := name task; trigger_type := trigger_type task;
     trigger_config := trigger_config task;
     mcp_server := mcp_server task; mcp_tool := mcp_tool task;
     mcp_arguments := mcp_arguments task;
     agent_prompt := agent_prompt task; enabled := enabled task;
     status := v; created_at := created_at task;
     updated_at := updated_at task; last_run := last_run task;
     last_status := last_status task; last_message := last_message task;
     next_run := next_run task; history := history task |}.

Definition set_enabled (task : TaskRecord) (v : bool)
  : TaskRecord :=
  {| id := id task; name := name task; trigger_type := trigger_type task;
     trigger_config := trigger_config task;
     mcp_server := mcp_server task; mcp_tool := mcp_tool task;
     mcp_arguments := mcp_arguments task;
     agent_prompt := agent_prompt task; enabled := v;
     status := status task; created_at := created_at task;
     updated_at := updated_at task; last_run := last_run task;
     last_status := last_status task; last_message := last_message task;
     next_run := next_run task; history := history task |}.

Definition set_next_run (task : TaskRecord) (v : option string)
  : TaskRecord :=
  {| id := id task; name := name task; trigger_type := trigger_type task;
     trigger_config := trigger_config task;
     mcp_server := mcp_server task; mcp_tool := mcp_tool task;
     mcp_arguments := mcp_arguments task;
     agent_prompt := agent_prompt task; enabled := enabled task;
     status := status task; created_at := created_at task;
     updated_at := updated_at task; last_run := last_run task;
     last_status := last_status task; last_message := last_message task;
     next_run := v; history := history task |}.

Definition set_updated_at (task : TaskRecord) (v : string)
  : TaskRecord :=
  {| id := id task; name := name task; trigger_type := trigger_type task;
     trigger_config := trigger_config task;
     mcp_server := mcp_server task; mcp_tool := mcp_tool task;
     mcp_arguments := mcp_arguments task;
     agent_prompt := agent_prompt task; enabled := enabled task;
     status := status task; created_at := created_at task;
     updated_at := v; last_run := last_run task;
     last_status := last_status task; last_message := last_message task;
     next_run := next_run task; history := history task |}.

Definition set_history (task : TaskRecord) (v : option (list TaskHistoryEntry))
  : TaskRecord :=
  {| id := id task; name := name task; trigger_type := trigger_type task;
     trigger_config := trigger_config task;
     mcp_server := mcp_server task; mcp_tool := mcp_tool task;
     mcp_arguments := mcp_arguments task;
     agent_prompt := agent_prompt task; enabled := enabled task;
     status := status task; created_at := created_at task;
     updated_at := updated_at task; last_run := last_run task;
     last_status := last_status task; last_message := last_message task;
     next_run := next_run task; history := v |}.

Definition set_last_run (task : TaskRecord) (v : option string)
  : TaskRecord :=
  {| id := id task; name := name task; trigger_type := trigger_type task;
     trigger_config := trigger_config task;
     mcp_server := mcp_server task; mcp_tool := mcp_tool task;
     mcp_arguments := mcp_arguments task;
     agent_prompt := agent_prompt task; enabled := enabled task;
     status := status task; created_at := created_at task;
     updated_at := updated_at task; last_run := v;
     last_status := last_status task; last_message := last_message task;
     next_run := next_run task; history := history task |}.

Definition set_last_status (task : TaskRecord) (v : option LastStatus)
  : TaskRecord :=
  {| id := id task; name := name task; trigger_type := trigger_type task;
     trigger_config := trigger_config task;
     mcp_server := mcp_server task; mcp_tool := mcp_tool task;
     mcp_arguments := mcp_arguments task;
     agent_prompt := agent_prompt task; enabled := enabled task;
     status := status task; created_at := created_at task;
     updated_at := updated_at task; last_run := last_run task;
     last_status := v; last_message := last_message task;
     next_run := next_run task; history := history task |}.

Definition set_last_message (task : TaskRecord) (v : option string)
  : TaskRecord :=
  {| id := id task; name := name task; trigger_type := trigger_type task;
     trigger_config := trigger_config task;
     mcp_server := mcp_server task; mcp_tool := mcp_tool task;
     mcp_arguments := mcp_arguments task;
     agent_prompt := agent_prompt task; enabled := enabled task;
     status := status task; created_at := created_at task;
     updated_at := updated_at task; last_run := last_run task;
     last_status := last_status task; last_message := v;
     next_run := next_run task; history := history task |}.

(** ** The scheduler: trigger evaluation and normalisation (scheduler.ts) *)

Definition HISTORY_LIMIT : nat := 10.

(** [task.trigger_config as IntervalTriggerConfig]: a configuration of
    another shape has none of the four properties. *)
Definition config_interval (c : SupportedTriggerConfig)
  : IntervalTriggerConfig :=
  match c with
  | IntervalConfig i => i
  | _ => {| seconds := None; minutes := None; hours := None; days := None |}
  end.

(** [task.trigger_config.expression] *)
Definition config_expression (c : SupportedTriggerConfig) : option string :=
  match c with
  | CronConfig c => Some (expression c)
  | _ => None
  end.

(** [task.trigger_config.run_date] *)
Definition config_run_date (c : SupportedTriggerConfig) : option string :=
  match c with
  | DateConfig c => Some (run_date c)
  | _ => None
  end.

(** [if (value) intervalMs += value * ...]; [ms] is the product the
    source writes for the field. *)
Definition addIfSet (intervalMs : Q) (value : option Q) (ms : Q -> Q) : Q :=
  match value with
  | Some v =>
      if truthy_number v then Number_add intervalMs (ms v) else intervalMs
  | None => intervalMs
  end.

Definition computeIntervalMs (config : IntervalTriggerConfig) : Q :=
  let intervalMs := 0%Q in
  let intervalMs := addIfSet intervalMs (seconds config) seconds_ms in
  let intervalMs := addIfSet intervalMs (minutes config) minutes_ms in
  let intervalMs := addIfSet intervalMs (hours config) hours_ms in
  let intervalMs := addIfSet intervalMs (days config) days_ms in
  intervalMs.

(** [slice(0, HISTORY_LIMIT)] when the array is longer than the limit *)
Definition limit_history (h : list TaskHistoryEntry) : list TaskHistoryEntry :=
  if (HISTORY_LIMIT <? length h)%nat then firstn HISTORY_LIMIT h else h.

Definition appendHistory (task : TaskRecord) (entry : TaskHistoryEntry)
  : TaskRecord :=
  let h := match history task with Some h => h | None => [] end in
  set_history task (Some (limit_history (entry :: h))).

(** [task.history && task.history[0]?.status === 'success'] *)
Definition newest_is_success (task : TaskRecord) : bool :=
  match history task with
  | Some ({| entry_status := run_success |} :: _) => true
  | _ => false
  end.

Section Triggers.

Context `{Host}.

Local Open Scope res_scope.

(** [task.next_run] when it names an instant after [fromDate]:
    [if (task.next_run) { existing = new Date(task.next_run);
         if (existing > fromDate) ... }] *)
Definition existing_after (task : TaskRecord) (fromDate : Z) : option Date :=
  if truthy_opt_string (next_run task) then
    let existing := Date_of_opt_string (next_run task) in
    if Date_gt existing (Some fromDate) then Some existing else None
  else None.

Definition computeNextRun (task : TaskRecord) (fromDate : Z)
  : Res (option string) :=
  if negb (enabled task) || TaskStatus_eqb (status task) completed then
    Ok (next_run task)
  else
    match trigger_type task with
    | interval =>
        match existing_after task fromDate with
        | Some existing => iso <- toISOString existing ;; Ok (Some iso)
        | None =>
            let intervalMs :=
              computeIntervalMs (config_interval (trigger_config task)) in
            if Qle_bool intervalMs 0 then Ok None
            else
              let next :=
                Date_of_number (Number_add (inject_Z fromDate) intervalMs) in
              iso <- toISOString next ;;
              Ok (Some iso)
        end
    | cron =>
        match existing_after task fromDate with
        | Some existing => iso <- toISOString existing ;; Ok (Some iso)
        | None =>
            match config_expression (trigger_config task) with
            | Some e =>
                match cron_next e fromDate with
                | Some nextDate => Ok (Some (Date_iso nextDate))
                | None => Ok None
                end
            | None => Ok None
            end
        end
    | date =>
        let runDate :=
          Date_of_opt_string (config_run_date (trigger_config task)) in
        if Date_le runDate (Some fromDate) then Ok None
        else iso <- toISOString runDate ;; Ok (Some iso)
    end.

Definition determineStatus (task : TaskRecord) (now : Z) : TaskStatus :=
  if negb (enabled task) then
    if TaskStatus_eqb (status task) completed then completed else paused
  else if TaskStatus_eqb (status task) running then running
  else
    match trigger_type task with
    | date =>
        let runDate :=
          Date_of_opt_string (config_run_date (trigger_config task)) in
        if newest_is_success task then completed
        else if Date_le runDate (Some now) then completed
        else scheduled
    | _ =>
        match last_status task with
        | Some last_error => error
        | _ => scheduled
        end
    end.

End Triggers.

(** ** The scheduler: state, clock and peer

    A method of the scheduler is a function of the state that returns a
    result or throws, with the state it leaves.  A call runs to its end
    before another starts: what timers and other calls do while a fire
    awaits the peer is not modelled, and neither are the timers that the
    scheduler arms. *)

(** What the scheduler can change: the database, and how many times the
    clock has been read. *)
Record World : Type := mkWorld {
  storage : Store;
  clock_reads : nat
}.

(** The surroundings of a run: the n-th reading of the clock ([new Date()]
    or [Date.now()]) and the suffix [Math.random()] gives to an id made at
    that reading. *)
Class Env : Type := {
  clock : nat -> Z;
  random_suffix : nat -> string
}.

Definition M (A : Type) : Type := World -> Res A * World.

Definition ret {A : Type} (a : A) : M A := fun w => (Ok a, w).

Definition bind {A B : Type} (m : M A) (k : A -> M B) : M B :=
  fun w =>
    match m w with
    | (Ok a, w') => k a w'
    | (Throw e, w') => (Throw e, w')
    end.

Definition lift {A : Type} (r : Res A) : M A := fun w => (r, w).

(** [try { x = body; rest(x) } catch (error) { handler(error) }] where
    what [rest] throws is left to [rest] itself. *)
Definition try_then {A B : Type} (body : M A) (rest : A -> M B)
    (handler : JsError -> M B) : M B :=
  fun w =>
    match body w with
    | (Ok a, w') => rest a w'
    | (Throw e, w') => handler e w'
    end.

(** [try { body } catch (error) { handler(error) }] *)
Definition try_catch {A : Type} (body : M A) (handler : JsError -> M A) : M A :=
  fun w =>
    match body w with
    | (Ok a, w') => (Ok a, w')
    | (Throw e, w') => handler e w'
    end.

Declare Scope M_scope.
Delimit Scope M_scope with M.
Notation "x <- m ;; k" := (bind m (fun x => k))
  (at level 61, m at next level, right associativity) : M_scope.
Notation "m ;;; k" := (bind m (fun _ => k))
  (at level 61, right associativity) : M_scope.

(** The answer of the peer to [sampling/createMessage]:
    [response.content?.text], and [JSON.stringify(response)]. *)
Record SamplingResult : Type := mkSampling {
  content_text : option string;
  response_json : string
}.

(** [mcpServer.request] for a prompt, issued after the given number of
    clock readings: the validated result, or the error it rejects with. *)
Definition Server : Type := string -> nat -> Res SamplingResult.

Record TaskScheduler : Type := mkScheduler {
  mcpServer : option Server;
  samplingTimeoutMs : Q
}.

(** [{ success, message }] *)
Record RunResult : Type := mkRunResult {
  success : bool;
  result_message : string
}.

Section Scheduler.

Context `{Host} `{Env}.

Local Open Scope M_scope.

(** [new Date()] and [Date.now()] *)
Definition new_Date : M Z :=
  fun w =>
    (Ok (clock (clock_reads w)),
     {| storage := storage w; clock_reads := S (clock_reads w) |}).

(** [throw error] *)
Definition throw {A : Type} (e : JsError) : M A := fun w => (Throw e, w).

Definition storage_upsert (task : TaskRecord) : M unit :=
  fun w =>
    (Ok tt,
     {| storage := upsert (storage w) task; clock_reads := clock_reads w |}).

Definition storage_get (taskId : string) : M (option TaskRecord) :=
  fun w => (Ok (get (storage w) taskId), w).


(** The constructor's reading of [SCHEDULE_TASK_SAMPLING_TIMEOUT] *)
Definition configured_timeout (timeoutEnv : option string) : Q :=
  match timeoutEnv with
  | Some text =>
      if truthy_string text then
        match StringToNumber text with
        | Some parsedTimeout =>
            if Qltb 0 parsedTimeout then parsedTimeout else 180000%Q
        | None => 180000%Q
        end
      else 180000%Q
  | None => 180000%Q
  end.

Definition normaliseTask (task : TaskRecord) : M TaskRecord :=
  now <- new_Date ;;
  let task :=
    match history task with
    | Some h =>
        if (HISTORY_LIMIT <? length h)%nat
        then set_history task (Some (firstn HISTORY_LIMIT h))
        else task
    | None => task
    end in
  let task := set_status task (determineStatus task now) in
  let task :=
    match trigger_type task with
    | date =>
        if TaskStatus_eqb (status task) completed
        then set_enabled task false
        else task
    | _ => task
    end in
  next <- lift (computeNextRun task now) ;;
  let task := set_next_run task next in
  updated <-
    (if truthy_string (updated_at task) then ret (updated_at task)
     else t <- new_Date ;; ret (Date_iso t)) ;;
  ret (set_updated_at task updated).




Definition clearTaskHistory (taskId : string) : M TaskRecord :=
  task <- storage_get taskId ;;
  match task with
  | None => throw (Error ("Task not found: " ++ taskId))
  | Some task =>
      let task := set_history task (Some []) in
      let task := set_last_message task None in
      let task := set_last_status task None in
      now <- new_Date ;;
      let task := set_updated_at task (Date_iso now) in
      storage_upsert task ;;;
      ret task
  end.

(** [`${value}`] for a property that may be undefined *)
Definition template (o : option string) : string :=
  match o with Some s => s | None => "undefined" end.

(** [String(error)] for an [Error] object *)
Definition Error_toString (e : JsError) : string :=
  if truthy_string (err_name e) then
    if truthy_string (err_message e)
    then err_name e ++ ": " ++ err_message e
    else err_name e
  else err_message e.

(** The body of [try] up to the message of the run *)
Definition run_action (self : TaskScheduler) (task : TaskRecord) : M string :=
  if truthy_opt_string (agent_prompt task) then
    match mcpServer self with
    | Some server =>
        response <-
          (fun w =>
             (server (template (agent_prompt task)) (clock_reads w), w)) ;;
        let content :=
          if truthy_opt_string (content_text response)
          then template (content_text response)
          else response_json response in
        ret ("Sampling response: " ++ content)
    | None =>
        ret "Task configured with agent_prompt but MCP server is not ready to send sampling requests"
    end
  else if truthy_opt_string (mcp_server task)
          && truthy_opt_string (mcp_tool task) then
    ret ("Task configured (legacy): " ++ template (mcp_server task) ++ "."
         ++ template (mcp_tool task))
  else
    ret ("Task executed: " ++ template (name task)
         ++ " (no action configured)").

(** The five assignments that open [runTask] *)
Definition mark_running (task : TaskRecord) (startIso : string) : TaskRecord :=
  let task := set_status task running in
  let task := set_last_run task (Some startIso) in
  let task := set_last_status task (Some last_running) in
  let task := set_last_message task None in
  set_updated_at task startIso.

(** The assignments of the [try] block after the action, up to and with
    the history entry *)
Definition mark_success (task : TaskRecord) (startIso message : string)
  : TaskRecord :=
  let task := set_last_status task (Some last_success) in
  let task := set_last_message task (Some message) in
  let task :=
    set_status task
      (match trigger_type task with date => completed | _ => scheduled end) in
  appendHistory task
    {| run_at := startIso; entry_status := run_success;
       message := Some message |}.

(** [errorMessage] of the [catch] block *)
Definition errorMessage_of (self : TaskScheduler) (err : JsError) : string :=
  let errorMessage :=
    if truthy_string (err_message err) then err_message err
    else Error_toString err in
  match err_code err with
  | Some (-32001) =>
      "Sampling request timed out after "
      ++ Number_toString
           (Math_round (Number_div (samplingTimeoutMs self) 1000))
      ++ "s"
  | _ => errorMessage
  end.

(** The first three assignments of the [catch] block *)
Definition mark_error (task : TaskRecord) (errorMessage : string)
  : TaskRecord :=
  let task := set_last_status task (Some last_error) in
  let task := set_last_message task (Some errorMessage) in
  set_status task error.

(** The [catch] block of [runTask], entered with the task as the [try]
    block left it. *)
Definition run_failed (self : TaskScheduler) (task : TaskRecord)
    (startIso : string) (err : JsError) : M (RunResult * TaskRecord) :=
  let errorMessage := errorMessage_of self err in
  let task := mark_error task errorMessage in
  fromDate <- new_Date ;;
  next <- lift (computeNextRun task fromDate) ;;
  let task := set_next_run task next in
  let task :=
    appendHistory task
      {| run_at := startIso; entry_status := run_error;
         message := Some errorMessage |} in
  now <- new_Date ;;
  let task := set_updated_at task (Date_iso now) in
  storage_upsert task ;;;
  ret ({| success := false; result_message := errorMessage |}, task).

(** The end of the [try] block: the next run, the stamp and the write *)
Definition finish_success (task : TaskRecord) (start : Z) (message : string)
  : M (RunResult * TaskRecord) :=
  task <-
    match trigger_type task with
    | date => ret (set_next_run (set_enabled task false) None)
    | _ =>
        next <- lift (computeNextRun task start) ;;
        ret (set_next_run task next)
    end ;;
  now <- new_Date ;;
  let task := set_updated_at task (Date_iso now) in
  storage_upsert task ;;;
  ret ({| success := true; result_message := message |}, task).

(** [runTask(task)]: the result, and the task object as the run leaves
    it. *)
Definition runTask (self : TaskScheduler) (task : TaskRecord)
  : M (RunResult * TaskRecord) :=
  start <- new_Date ;;
  let startIso := Date_iso start in
  let task := mark_running task startIso in
  storage_upsert task ;;;
  try_then (run_action self task)
    (fun message =>
       let task := mark_success task startIso message in
       try_catch (finish_success task start message)
                 (run_failed self task startIso))
    (run_failed self task startIso).

Definition executeTask (self : TaskScheduler) (taskId : string)
  : M RunResult :=
  task <- storage_get taskId ;;
  match task with
  | None =>
      ret {| success := false;
             result_message := "Task not found: " ++ taskId |}
  | Some task =>
      r <- runTask self task ;;
      ret (fst r)
  end.

(** [scheduleInterval]: the timer itself is not part of the state; what
    is kept is the write of [next_run] that goes with arming it. *)
Definition scheduleInterval (task : TaskRecord) : M TaskRecord :=
  let intervalMs := computeIntervalMs (config_interval (trigger_config task)) in
  if Qle_bool intervalMs 0 then ret task
  else
    let normalizedInterval := Z.max 1 (Math_round intervalMs) in
    now <- new_Date ;;
    nextRun <-
      lift (toISOString
              (Date_of_number
                 (Number_add (inject_Z now) (inject_Z normalizedInterval)))) ;;
    let task := set_next_run task (Some nextRun) in
    stamp <- new_Date ;;
    let task := set_updated_at task (Date_iso stamp) in
    storage_upsert task ;;;
    ret task.

Definition scheduleCron (task : TaskRecord) : M TaskRecord :=
  match config_expression (trigger_config task) with
  | Some e =>
      if negb (cron_validate e) then ret task
      else
        fromDate <- new_Date ;;
        nextRun <- lift (computeNextRun task fromDate) ;;
        if truthy_opt_string nextRun then
          let task := set_next_run task nextRun in
          stamp <- new_Date ;;
          let task := set_updated_at task (Date_iso stamp) in
          storage_upsert task ;;;
          ret task
        else ret task
  | None => ret task
  end.

Definition scheduleDate (task : TaskRecord) : M TaskRecord :=
  let runDate := Date_of_opt_string (config_run_date (trigger_config task)) in
  now <- new_Date ;;
  if Date_le runDate (Some now) then ret task
  else
    iso <- lift (toISOString runDate) ;;
    let task := set_next_run task (Some iso) in
    stamp <- new_Date ;;
    let task := set_updated_at task (Date_iso stamp) in
    storage_upsert task ;;;
    ret task.

Definition scheduleTask (task : TaskRecord) : M TaskRecord :=
  match trigger_type task with
  | interval => scheduleInterval task
  | cron => scheduleCron task
  | date => scheduleDate task
  end.

(** [`task-${Date.now()}-${Math.random().toString(36).substring(2, 9)}`] *)
Definition generateId : M string :=
  fun w =>
    (Ok ("task-" ++ Number_toString (clock (clock_reads w)) ++ "-"
         ++ random_suffix (clock_reads w)),
     {| storage := storage w; clock_reads := S (clock_reads w) |}).

Record CreateParams : Type := mkParams {
  param_name : string;
  param_trigger_type : SupportedTriggerType;
  param_trigger_config : SupportedTriggerConfig;
  param_mcp_server : option string;
  param_mcp_tool : option string;
  param_mcp_arguments : option JsValue;
  param_agent_prompt : option string
}.

Definition createTask (params : CreateParams) : M TaskRecord :=
  now <- new_Date ;;
  taskId <- generateId ;;
  let task :=
    {| id := taskId;
       name := Some (param_name params);
       trigger_type := param_trigger_type params;
       trigger_config := param_trigger_config params;
       mcp_server := param_mcp_server params;
       mcp_tool := param_mcp_tool params;
       mcp_arguments := param_mcp_arguments params;
       agent_prompt := param_agent_prompt params;
       enabled := true;
       status := scheduled;
       created_at := Date_iso now;
       updated_at := Date_iso now;
       last_run := None;
       last_status := None;
       last_message := None;
       next_run := None;
       history := Some [] |} in
  fromDate <- new_Date ;;
  next <- lift (computeNextRun task fromDate) ;;
  let task := set_next_run task next in
  storage_upsert task ;;;
  if enabled task then scheduleTask task else ret task.

(** ** The tool handlers (index.ts) *)

Definition validateTriggerConfig (triggerType : SupportedTriggerType)
    (rawConfig : JsValue) : M SupportedTriggerConfig :=
  let dispatch (o : JsObj) : M SupportedTriggerConfig :=
    match triggerType with
    | interval =>
        c <- lift (validateIntervalConfig o) ;; ret (IntervalConfig c)
    | cron => c <- lift (validateCronConfig o) ;; ret (CronConfig c)
    | date =>
        now <- new_Date ;;
        c <- lift (validateDateConfig o now) ;;
        ret (DateConfig c)
    end in
  match rawConfig with
  | JsObject fields => dispatch fields
  | JsArray items => dispatch (array_entries items)
  | _ => throw (Error "trigger_config must be an object")
  end.

Definition sanitizeAgentPrompt (value : JsValue) : Res (option string) :=
  match value with
  | JsUndefined | JsNull => Ok None
  | JsString s =>
      if (String.length (trim s) =? 0)%nat then
        Throw (Error "agent_prompt must be a non-empty string when provided")
      else Ok (Some (trim s))
  | _ => Throw (Error "agent_prompt must be a non-empty string when provided")
  end.

Definition extractAgentPrompt (args : JsObj) : Res (option string) :=
  res_bind (sanitizeAgentPrompt (js_get "agent_prompt" args))
    (fun prompt =>
       if truthy_opt_string prompt then Ok prompt
       else
         sanitizeAgentPrompt
           (match js_get "mcp_arguments" args with
            | JsObject fields => js_get "agent_prompt" fields
            | _ => JsUndefined
            end)).

(** [args.x as string | undefined]: a value of another type is outside
    the declared type and is read as missing. *)
Definition as_string (v : JsValue) : option string :=
  match v with JsString s => Some s | _ => None end.

Definition as_value (v : JsValue) : option JsValue :=
  match v with JsUndefined => None | _ => Some v end.

(** The result of a tool call: the task it answers with, or the message of
    the error envelope. *)
Inductive ToolResult : Type :=
| ToolSuccess (task : TaskRecord)
| ToolFailure (error_message : string).

Definition parse_trigger_type (v : JsValue) : Res SupportedTriggerType :=
  match v with
  | JsString s =>
      if String.eqb s "interval" then Ok interval
      else if String.eqb s "cron" then Ok cron
      else if String.eqb s "date" then Ok date
      else Throw (Error "trigger_type must be one of interval, cron, date")
  | _ => Throw (Error "trigger_type must be one of interval, cron, date")
  end.

(** [case 'create_task'] *)
Definition create_task (args : JsObj) : M ToolResult :=
  try_catch
    (taskName <-
       lift (match js_get "name" args with
             | JsString s =>
                 if (String.length (trim s) =? 0)%nat
                 then Throw (Error "Task name is required")
                 else Ok (trim s)
             | _ => Throw (Error "Task name is required")
             end) ;;
     triggerType <- lift (parse_trigger_type (js_get "trigger_type" args)) ;;
     triggerConfig <-
       validateTriggerConfig triggerType (js_get "trigger_config" args) ;;
     agentPrompt <- lift (extractAgentPrompt args) ;;
     created <-
       createTask
         {| param_name := taskName;
            param_trigger_type := triggerType;
            param_trigger_config := triggerConfig;
            param_mcp_server := as_string (js_get "mcp_server" args);
            param_mcp_tool := as_string (js_get "mcp_tool" args);
            param_mcp_arguments := as_value (js_get "mcp_arguments" args);
            param_agent_prompt := agentPrompt |} ;;
     ret (ToolSuccess created))
    (fun err => ret (ToolFailure (err_message err))).

(** [case 'clear_task_history'] *)
Definition clear_task_history (args : JsObj) : M ToolResult :=
  try_catch
    (clearId <-
       lift (match js_get "task_id" args with
             | JsString s =>
                 if (String.length (trim s) =? 0)%nat
                 then Throw (Error "task_id is required")
                 else Ok (trim s)
             | _ => Throw (Error "task_id is required")
             end) ;;
     cleared <- clearTaskHistory clearId ;;
     ret (ToolSuccess cleared))
    (fun err => ret (ToolFailure (err_message err))).

End Scheduler.

(** ** A small host, for running the model

    A fragment of the real built-ins: [toISOString] in full, [new Date]
    on the strings that [toISOString] prints (the milliseconds may be left
    out), [Number] on decimal numerals, [String] on the whole doubles
    above 2^53, [trim] on ASCII text. *)

Module Sample.

Definition is_space (c : ascii) : bool :=
  match c with
  | " "%char | "009"%char | "010"%char | "011"%char | "012"%char
  | "013"%char => true
  | _ => false
  end.

Fixpoint trim_start (s : string) : string :=
  match s with
  | String c rest => if is_space c then trim_start rest else s
  | EmptyString => EmptyString
  end.

Fixpoint trim_end (s : string) : string :=
  match s with
  | String c rest =>
      match trim_end rest with
      | EmptyString => if is_space c then EmptyString else String c EmptyString
      | rest' => String c rest'
      end
  | EmptyString => EmptyString
  end.

(** The calendar date of a day number (days since 1970-01-01) *)
Definition civil_from_days (n : Z) : Z * Z * Z :=
  let z := n + 719468 in
  let era := z / 146097 in
  let doe := z - era * 146097 in
  let yoe := (doe - doe / 1460 + doe / 36524 - doe / 146096) / 365 in
  let doy := doe - (365 * yoe + yoe / 4 - yoe / 100) in
  let mp := (5 * doy + 2) / 153 in
  let d := doy - (153 * mp + 2) / 5 + 1 in
  let m := if mp <? 10 then mp + 3 else mp - 9 in
  let y := yoe + era * 400 in
  (if m <=? 2 then y + 1 else y, m, d).

Definition days_from_civil (y m d : Z) : Z :=
  let y := if m <=? 2 then y - 1 else y in
  let era := y / 400 in
  let yoe := y - era * 400 in
  let doy := (153 * (if 2 <? m then m - 3 else m + 9) + 2) / 5 + d - 1 in
  let doe := yoe * 365 + yoe / 4 - yoe / 100 + doy in
  era * 146097 + doe - 719468.

Definition digit (n : Z) : string :=
  String (ascii_of_N (48 + Z.to_N (n mod 10))) EmptyString.

(** [n] in [width] decimal digits *)
Fixpoint padded (width : nat) (n : Z) : string :=
  match width with
  | O => EmptyString
  | S w => padded w (n / 10) ++ digit n
  end.

Definition iso (t : Z) : string :=
  let '(y, m, d) := civil_from_days (t / 86400000) in
  let ms := t mod 86400000 in
  (if (0 <=? y) && (y <=? 9999) then padded 4 y
   else (if y <? 0 then "-" else "+") ++ padded 6 (Z.abs y))
  ++ "-" ++ padded 2 m ++ "-" ++ padded 2 d ++ "T"
  ++ padded 2 (ms / 3600000) ++ ":" ++ padded 2 (ms / 60000 mod 60) ++ ":"
  ++ padded 2 (ms / 1000 mod 60) ++ "." ++ padded 3 (ms mod 1000) ++ "Z".

Definition digit_value (c : ascii) : option Z :=
  let n := Z.of_N (N_of_ascii c) in
  if (48 <=? n) && (n <=? 57) then Some (n - 48) else None.

(** Reads [width] digits; the number they spell and the rest of the text *)
Fixpoint digits (width : nat) (acc : Z) (s : string) : option (Z * string) :=
  match width with
  | O => Some (acc, s)
  | S w =>
      match s with
      | String c rest =>
          match digit_value c with
          | Some v => digits w (acc * 10 + v) rest
          | None => None
          end
      | EmptyString => None
      end
  end.

Definition expect (c : ascii) (s : string) : option string :=
  match s with
  | String c' rest => if Ascii.eqb c c' then Some rest else None
  | EmptyString => None
  end.

Definition opt_bind {A B : Type} (o : option A) (k : A -> option B)
  : option B :=
  match o with Some a => k a | None => None end.

Definition parse (s : string) : option Z :=
  opt_bind (digits 4 0 s) (fun '(y, s) =>
  opt_bind (expect "-" s) (fun s =>
  opt_bind (digits 2 0 s) (fun '(m, s) =>
  opt_bind (expect "-" s) (fun s =>
  opt_bind (digits 2 0 s) (fun '(d, s) =>
  opt_bind (expect "T" s) (fun s =>
  opt_bind (digits 2 0 s) (fun '(hh, s) =>
  opt_bind (expect ":" s) (fun s =>
  opt_bind (digits 2 0 s) (fun '(mm, s) =>
  opt_bind (expect ":" s) (fun s =>
  opt_bind (digits 2 0 s) (fun '(ss, s) =>
  opt_bind
    (match expect "." s with
     | Some s => digits 3 0 s
     | None => Some (0, s)
     end) (fun '(ms, s) =>
  if String.eqb s "Z"
     && (1 <=? m) && (m <=? 12) && (1 <=? d) && (d <=? 31)
     && (hh <=? 23) && (mm <=? 59) && (ss <=? 59)
  then Some (days_from_civil y m d * 86400000 + hh * 3600000 + mm * 60000
             + ss * 1000 + ms)
  else None)))))))))))).

(** Reads the digits at the head of the text: their number, how many
    they are, and the rest *)
Fixpoint numeral (acc : Z) (count : nat) (s : string) : Z * nat * string :=
  match s with
  | String c rest =>
      match digit_value c with
      | Some v => numeral (acc * 10 + v) (S count) rest
      | None => (acc, count, s)
      end
  | EmptyString => (acc, count, s)
  end.

Definition unsigned_number (s : string) : option Q :=
  let '(whole, n, rest) := numeral 0 0 s in
  match rest with
  | EmptyString => if (0 <? n)%nat then Some (inject_Z whole) else None
  | String "."%char fraction =>
      let '(part, k, rest) := numeral 0 0 fraction in
      match rest with
      | EmptyString =>
          if (0 <? n + k)%nat
          then Some (inject_Z whole
                     + Qmake part (Pos.of_nat (Nat.pow 10 k)))%Q
          else None
      | _ => None
      end
  | _ => None
  end.

Definition number (s : string) : option Q :=
  match trim_end (trim_start s) with
  | EmptyString => Some 0%Q
  | String "-"%char rest => option_map Qopp (unsigned_number rest)
  | text => unsigned_number text
  end.

(** The shortest decimal [s * 10^m] that reads back as the double [x],
    for a whole [x > 0] of [len] digits: the candidates of 1, 2, ... digits
    on each side of [x], the nearer of two that fit, the even one on a
    tie. *)
Fixpoint shortest (fuel : nat) (k x len : Z) : Z * Z :=
  match fuel with
  | O => (x, 0)
  | S fuel' =>
      let m := len - k in
      let lo := x / 10 ^ m in
      let reads (s : Z) :=
        Qeq_bool (round_double (inject_Z (s * 10 ^ m))) (inject_Z x) in
      match reads lo, reads (lo + 1) with
      | true, true =>
          let below := x - lo * 10 ^ m in
          let above := (lo + 1) * 10 ^ m - x in
          if (below <? above) || ((below =? above) && Z.even lo)
          then (lo, m) else (lo + 1, m)
      | true, false => (lo, m)
      | false, true => (lo + 1, m)
      | false, false => shortest fuel' (k + 1) x len
      end
  end.

Fixpoint drop_zeros (s : string) : string :=
  match s with
  | String c rest =>
      match drop_zeros rest with
      | EmptyString =>
          if Ascii.eqb c "0" then EmptyString else String c EmptyString
      | rest' => String c rest'
      end
  | EmptyString => EmptyString
  end.

Fixpoint zeros (n : nat) : string :=
  match n with
  | O => EmptyString
  | S n' => String "0" (zeros n')
  end.

(** [String(x)] for a whole double of magnitude above 2^53 *)
Definition large (x : Z) : string :=
  let a := Z.abs x in
  let len := Z.of_nat (String.length (NilZero.string_of_int (Z.to_int a))) in
  let '(s, m) := shortest 17 1 a len in
  let text := NilZero.string_of_int (Z.to_int s) in
  let e := Z.of_nat (String.length text) + m - 1 in
  (if x <? 0 then "-" else "")
  ++ (if a <? 10 ^ 21 then text ++ zeros (Z.to_nat m)
      else
        match drop_zeros text with
        | String c EmptyString => String c EmptyString
        | String c rest => String c ("." ++ rest)
        | EmptyString => EmptyString
        end
        ++ "e+" ++ NilZero.string_of_int (Z.to_int e)).

Definition quote : string := String (ascii_of_nat 34) EmptyString.

Definition every_30_seconds : SupportedTriggerConfig :=
  IntervalConfig
    {| seconds := Some 30%Q; minutes := None; hours := None; days := None |}.

Definition on_2026_01_02 : SupportedTriggerConfig :=
  DateConfig {| run_date := "2026-01-02T00:00:00.000Z" |}.

Definition on_2025_12_31 : SupportedTriggerConfig :=
  DateConfig {| run_date := "2025-12-31T00:00:00.000Z" |}.

(** [JSON.stringify] on the three configurations above and on cron and
    date configurations; [JSON.parse] on the texts of the three. *)
Definition config_text (c : SupportedTriggerConfig) : string :=
  match c with
  | IntervalConfig
      {| seconds := Some (30 # 1)%Q; minutes := None; hours := None;
         days := None |} =>
      "{" ++ quote ++ "seconds" ++ quote ++ ":30}"
  | DateConfig c =>
      "{" ++ quote ++ "run_date" ++ quote ++ ":" ++ quote ++ run_date c
      ++ quote ++ "}"
  | CronConfig c =>
      "{" ++ quote ++ "expression" ++ quote ++ ":" ++ quote ++ expression c
      ++ quote ++ "}"
  | _ => "{}"
  end.

Definition config_of_text (s : string) : option SupportedTriggerConfig :=
  if String.eqb s (config_text every_30_seconds) then Some every_30_seconds
  else if String.eqb s (config_text on_2026_01_02) then Some on_2026_01_02
  else if String.eqb s (config_text on_2025_12_31) then Some on_2025_12_31
  else if String.eqb s "{}" then
    Some (IntervalConfig
            {| seconds := None; minutes := None; hours := None;
               days := None |})
  else None.

#[export] Instance host : Host := {
  Date_parse := parse;
  Date_iso := iso;
  StringToNumber := fun s => option_map round_double (number s);
  Number_toString_large := large;
  trim := fun s => trim_end (trim_start s);
  cron_validate := fun e => String.eqb e "0 9 * * *";
  cron_next := fun _ _ => None;
  stringify_config := config_text;
  parse_config := config_of_text;
  JSON_stringify := fun _ => "{}";
  JSON_parse := fun _ => None
}.

(** A clock that starts at 2026-01-01T00:00:00Z and advances by a second
    at each reading. *)
#[export] Instance env : Env := {
  clock := fun n => 1767225600000 + 1000 * Z.of_nat n;
  random_suffix := fun _ => "k3x9q2a"
}.

Definition start : World := {| storage := empty_store; clock_reads := 0 |}.

(** A task that pings the peer every 30 seconds, next at 00:00:30 *)
Definition heartbeat : TaskRecord :=
  {| id := "task-1767225600000-k3x9q2a";
     name := Some "heartbeat";
     trigger_type := interval;
     trigger_config := every_30_seconds;
     mcp_server := None; mcp_tool := None; mcp_arguments := None;
     agent_prompt := Some "ping";
     enabled := true;
     status := scheduled;
     created_at := "2026-01-01T00:00:00.000Z";
     updated_at := "2026-01-01T00:00:00.000Z";
     last_run := None; last_status := None; last_message := None;
     next_run := Some "2026-01-01T00:00:30.000Z";
     history := Some [] |}.

(** A one-time task for 2026-01-02, with nothing to do when it fires *)
Definition reminder : TaskRecord :=
  {| id := "task-1767225600001-k3x9q2a";
     name := Some "reminder";
     trigger_type := date;
     trigger_config := on_2026_01_02;
     mcp_server := None; mcp_tool := None; mcp_arguments := None;
     agent_prompt := None;
     enabled := true;
     status := scheduled;
     created_at := "2026-01-01T00:00:00.000Z";
     updated_at := "2026-01-01T00:00:00.000Z";
     last_run := None; last_status := None; last_message := None;
     next_run := Some "2026-01-02T00:00:00.000Z";
     history := Some [] |}.

Definition ran_once : list TaskHistoryEntry :=
  [{| run_at := "2025-12-31T00:00:00.000Z"; entry_status := run_success;
      message := Some "Task executed: reminder (no action configured)" |}].

(** The reminder after it ran by hand on 2025-12-31 and was enabled
    again *)
Definition fired_reminder : TaskRecord :=
  set_enabled
    (set_last_status
       (set_last_run (set_history reminder (Some ran_once))
                     (Some "2025-12-31T00:00:00.000Z"))
       (Some last_success))
    true.

(** An interval task that ran once, was paused, and was then turned into
    a date task by [update_task]: disabled, paused, its newest history
    entry a success. *)
Definition paused_reminder : TaskRecord :=
  set_status (set_enabled fired_reminder false) paused.


(** The state with one task in the store *)
Definition with_task (task : TaskRecord) : World :=
  {| storage := upsert empty_store task; clock_reads := 0 |}.

(** A peer that never answers: the request times out. *)
Definition silent_peer : Server :=
  fun _ _ =>
    Throw {| err_name := "McpError";
             err_message := "MCP error -32001: Request timed out";
             err_code := Some (-32001) |}.

(** A scheduler with [SCHEDULE_TASK_SAMPLING_TIMEOUT=50] *)
Definition impatient : TaskScheduler :=
  {| mcpServer := Some silent_peer;
     samplingTimeoutMs := configured_timeout (Some "50") |}.

(** A scheduler without a peer *)
Definition alone : TaskScheduler :=
  {| mcpServer := None; samplingTimeoutMs := configured_timeout None |}.

Definition no_patch : StatusPatch :=
  {| patch_last_run := None; patch_last_status := None;
     patch_last_message := None; patch_next_run := None |}.

Definition next_run_patch : StatusPatch :=
  {| patch_last_run := None; patch_last_status := None;
     patch_last_message := None;
     patch_next_run := Some "2026-01-01T00:01:00.000Z" |}.



(** The state after the reminder fired, and the reminder as [get] then
    returns it *)
Definition after_reminder_ran : World :=
  Eval vm_compute in snd (runTask alone reminder (with_task reminder)).

Definition reminder_that_ran : TaskRecord :=
  Eval vm_compute in
    match get (storage after_reminder_ran) (id reminder) with
    | Some task => task
    | None => reminder
    end.

(** An interval task whose row holds no duration: its configuration is
    the one [safeParse] falls back on. *)
Definition idle : TaskRecord :=
  {| id := "task-1767225600002-k3x9q2a";
     name := Some "idle";
     trigger_type := interval;
     trigger_config := empty_config;
     mcp_server := None; mcp_tool := None; mcp_arguments := None;
     agent_prompt := None;
     enabled := true;
     status := scheduled;
     created_at := "2026-01-01T00:00:00.000Z";
     updated_at := "2026-01-01T00:00:00.000Z";
     last_run := None; last_status := None; last_message := None;
     next_run := None;
     history := Some [] |}.

Definition every (s d : option Q) : SupportedTriggerConfig :=
  IntervalConfig
    {| seconds := s; minutes := None; hours := None; days := d |}.

(** An interval task of [{ days: 1e12 }] *)
Definition far : TaskRecord :=
  {| id := "task-1767225600003-k3x9q2a";
     name := Some "far";
     trigger_type := interval;
     trigger_config := every None (Some (inject_Z (10 ^ 12)));
     mcp_server := None; mcp_tool := None; mcp_arguments := None;
     agent_prompt := None;
     enabled := true;
     status := scheduled;
     created_at := "2026-01-01T00:00:00.000Z";
     updated_at := "2026-01-01T00:00:00.000Z";
     last_run := None; last_status := None; last_message := None;
     next_run := None;
     history := Some [] |}.

(** The double that the numeral 0.00199995 denotes *)
Definition fine_seconds : Q :=
  Eval vm_compute in round_double (199995 # 100000000).

(** An interval task of [{ seconds: 0.00199995 }] *)
Definition fine : TaskRecord :=
  {| id := "task-1767225600004-k3x9q2a";
     name := Some "fine";
     trigger_type := interval;
     trigger_config := every (Some fine_seconds) None;
     mcp_server := None; mcp_tool := None; mcp_arguments := None;
     agent_prompt := None;
     enabled := true;
     status := scheduled;
     created_at := "2026-01-01T00:00:00.000Z";
     updated_at := "2026-01-01T00:00:00.000Z";
     last_run := None; last_status := None; last_message := None;
     next_run := None;
     history := Some [] |}.

(** The entries of [n] successful runs, a minute apart, the newest first *)
Definition past_runs (n : nat) : list TaskHistoryEntry :=
  map (fun k =>
         {| run_at := iso (1767225600000 - 60000 * Z.of_nat (S k));
            entry_status := run_success;
            message := Some "Task executed: reminder (no action configured)" |})
      (seq 0 n).

(** The heartbeat with ten runs behind it, and with twelve *)
Definition busy : TaskRecord :=
  Eval vm_compute in set_history heartbeat (Some (past_runs 10)).

Definition crowded : TaskRecord :=
  Eval vm_compute in set_history heartbeat (Some (past_runs 12)).

(** What a fire of the busy heartbeat without a peer returns, the task
    as the fire leaves it and the state after it *)
Definition busy_result : RunResult :=
  Eval vm_compute in
    match runTask alone busy (with_task busy) with
    | (Ok (r, _), _) => r
    | _ => {| success := false; result_message := EmptyString |}
    end.

Definition busy_after : TaskRecord :=
  Eval vm_compute in
    match runTask alone busy (with_task busy) with
    | (Ok (_, task), _) => task
    | _ => busy
    end.

Definition after_busy_ran : World :=
  Eval vm_compute in snd (runTask alone busy (with_task busy)).

(** The crowded heartbeat as normalisation leaves it *)
Definition crowded_read : TaskRecord :=
  Eval vm_compute in
    match normaliseTask crowded start with
    | (Ok task, _) => task
    | _ => crowded
    end.

Definition after_crowded_read : World :=
  Eval vm_compute in snd (normaliseTask crowded start).

(** A reminder that is stored as running *)
Definition running_reminder : TaskRecord :=
  set_status fired_reminder running.

(** The error of a request that timed out *)
Definition timed_out : JsError :=
  {| err_name := "McpError";
     err_message := "MCP error -32001: Request timed out";
     err_code := Some (-32001) |}.

(** The double that the numeral 1e24 denotes *)
Definition very_long : Q :=
  Eval vm_compute in round_double (inject_Z (10 ^ 24)).

(** A scheduler with a sampling timeout of 1e24 ms *)
Definition patient : TaskScheduler :=
  {| mcpServer := Some silent_peer; samplingTimeoutMs := very_long |}.

(** A scheduler with a sampling timeout of 2^60 seconds *)
Definition slow : TaskScheduler :=
  {| mcpServer := Some silent_peer;
     samplingTimeoutMs := inject_Z (2 ^ 60 * 1000) |}.

End Sample.

(** ** Notions of the specification *)

Section Notions.

Context `{Host}.

(** The value of a duration field of a raw interval configuration, when
    the field is there. *)
Definition provided (rawConfig : JsObj) (key : string) : Res (option Q) :=
  if js_in key rawConfig then
    res_bind (ensureNumber (js_get key rawConfig) ("trigger_config." ++ key))
             (fun v => Ok (Some v))
  else Ok None.

(** The total duration a raw interval configuration asks for, in
    milliseconds. *)
Definition requested_duration (rawConfig : JsObj) : Res Q :=
  res_bind (provided rawConfig "seconds") (fun s =>
  res_bind (provided rawConfig "minutes") (fun m =>
  res_bind (provided rawConfig "hours") (fun h =>
  res_bind (provided rawConfig "days") (fun d =>
  Ok (addMs (addMs (addMs (addMs 0 s seconds_ms) m minutes_ms) h hours_ms)
            d days_ms))))).

(** A field that is missing counts for nothing. *)
Definition or_zero (value : option Q) : Q :=
  match value with Some v => v | None => 0%Q end.

(** The milliseconds of so many whole seconds, minutes, hours and days *)
Definition whole_duration (s m h d : Z) : Z :=
  s * 1000 + m * (60 * 1000) + h * (60 * 60 * 1000)
  + d * (24 * 60 * 60 * 1000).

(** A number that can be the time value of a date: at most 8.64e15
    milliseconds from the epoch *)
Definition time_value (q : Q) : Prop := (Qabs q <= 8640000000000000)%Q.

(** The delay a raw date configuration gives in one of its fields: none
    when the field is missing, and never a negative one. *)
Definition delay_of (rawConfig : JsObj) (field : string) : Res (option Q) :=
  if is_undefined (js_get field rawConfig) then Ok None
  else
    res_bind (ensureNumber (js_get field rawConfig)
                           ("trigger_config." ++ field))
      (fun v =>
         if Qltb v 0 then Throw (Error (field ++ " must be >= 0"))
         else Ok (Some v)).





(** The instant the stored [next_run] of a task names, if it names
    one: the fire that was planned before. *)
Definition planned_instant (task : TaskRecord) : option Z :=
  if truthy_opt_string (next_run task)
  then Date_of_opt_string (next_run task)
  else None.

(** What a history row says, its key apart: whose it is and the entry. *)
Definition row_content (r : HistoryRow) : string * TaskHistoryEntry :=
  (task_id r, entry_of_row r).

(** The rows [upsert] writes for the entries of a task, numbered from the
    key after [seq] *)
Fixpoint fresh_rows (taskId : string) (entries : list TaskHistoryEntry)
    (seq : Z) : list HistoryRow :=
  match entries with
  | [] => []
  | entry :: rest =>
      {| hist_id := seq + 1; task_id := taskId; hist_run_at := run_at entry;
         hist_status := entry_status entry; hist_message := message entry |}
      :: fresh_rows taskId rest (seq + 1)
  end.

(** The history rows of a task, in rowid order, as entries *)
Definition stored_history (db : Store) (taskId : string)
  : list TaskHistoryEntry :=
  map entry_of_row
      (filter (fun r => String.eqb (task_id r) taskId) (task_history db)).

(** Two lists of history rows that say the same, keys apart *)
Definition same_content (a b : list HistoryRow) : Prop :=
  map row_content a = map row_content b.

(** The primary key of [tasks]: no two rows with the same id *)
Definition unique_ids (db : Store) : Prop := NoDup (map row_id (tasks db)).

(** A column after a partial update: the value of the patch when the
    patch has the field, the old value when it has not. *)
Definition written {A : Type} (patched old new : option A) : Prop :=
  match patched with
  | Some v => new = Some v
  | None => new = old
  end.

(** Two rows that agree on every column that [updateStatus] and
    [clearHistory] never write. *)
Definition same_fixed_columns (a b : TaskRow) : Prop :=
  row_id a = row_id b
  /\ row_trigger_type a = row_trigger_type b
  /\ row_trigger_config a = row_trigger_config b
  /\ row_mcp_server a = row_mcp_server b
  /\ row_mcp_tool a = row_mcp_tool b
  /\ row_mcp_arguments a = row_mcp_arguments b
  /\ row_agent_prompt a = row_agent_prompt b
  /\ row_enabled a = row_enabled b
  /\ row_status a = row_status b
  /\ row_created_at a = row_created_at b.

(** A date task is well formed when its [run_date] names an instant. *)
Definition run_date_valid (task : TaskRecord) : Prop :=
  trigger_type task = date ->
  exists t,
    Date_of_opt_string (config_run_date (trigger_config task)) = Some t.

(** The next run of an interval task can be printed, counted from an
    instant, when the instant plus the duration of the interval is a time
    value. *)
Definition next_run_in_range (task : TaskRecord) (fromDate : Z) : Prop :=
  trigger_type task = interval ->
  time_value
    (Number_add (inject_Z fromDate)
                (computeIntervalMs (config_interval (trigger_config task)))).

(** The history a task has so far ([[]] when it has none yet) *)
Definition old_history (task : TaskRecord) : list TaskHistoryEntry :=
  match history task with Some h => h | None => [] end.

(** A task with its history cut to the ten newest entries *)
Definition truncated (task : TaskRecord) : TaskRecord :=
  match history task with
  | Some h =>
      if (HISTORY_LIMIT <? length h)%nat
      then set_history task (Some (firstn HISTORY_LIMIT h))
      else task
  | None => task
  end.

(** Whether normalisation leaves a task enabled: a date task that it
    finds completed is switched off. *)
Definition normalised_enabled (task : TaskRecord) (now : Z) : bool :=
  match trigger_type task with
  | date =>
      if TaskStatus_eqb (determineStatus task now) completed then false
      else enabled task
  | _ => enabled task
  end.

End Notions.

Section SchedulerNotions.

Context `{Host} `{Env}.

(** The state in which the action of a run is taken: the task is stored
    as running, the clock has been read once. *)
Definition running_world (task : TaskRecord) (w : World) : World :=
  {| storage :=
       upsert (storage w)
              (mark_running task (Date_iso (clock (clock_reads w))));
     clock_reads := S (clock_reads w) |}.


End SchedulerNotions.

(** * Properties *)

(** ** Numbers and dates *)

Lemma Qltb_lt (x y : Q) : Qltb x y = true <-> (x < y)%Q.
Proof.
  unfold Qltb. rewrite negb_true_iff. split.
  - intros E. apply Qnot_le_lt. intros L.
    apply Qle_bool_iff in L. congruence.
  - intros L. destruct (Qle_bool y x) eqn:E; [|reflexivity].
    apply Qle_bool_iff in E. exfalso. exact (Qlt_not_le _ _ L E).
Qed.

Lemma Qltb_ge (x y : Q) : Qltb x y = false <-> (y <= x)%Q.
Proof.
  unfold Qltb. rewrite negb_false_iff. apply Qle_bool_iff.
Qed.

Lemma Qle_bool_gt (x y : Q) : Qle_bool x y = false <-> (y < x)%Q.
Proof.
  rewrite <- Qltb_lt. unfold Qltb. rewrite negb_true_iff. tauto.
Qed.

Lemma truthy_number_nonzero (q : Q) : truthy_number q = true <-> ~ (q == 0)%Q.
Proof.
  unfold truthy_number. rewrite negb_true_iff. split.
  - intros E Z0. apply Qeq_bool_iff in Z0. congruence.
  - intros N. destruct (Qeq_bool q 0) eqn:E; [|reflexivity].
    apply Qeq_bool_iff in E. contradiction.
Qed.

Lemma ToIntegerOrInfinity_comp (x y : Q) :
  (x == y)%Q -> ToIntegerOrInfinity x = ToIntegerOrInfinity y.
Proof.
  intros E. unfold ToIntegerOrInfinity, Qltb.
  rewrite (Qleb_comp 0%Q 0%Q (Qeq_refl 0%Q) x y E).
  destruct (negb (Qle_bool 0 y)).
  - apply Qceiling_comp, E.
  - apply Qfloor_comp, E.
Qed.

Lemma ToIntegerOrInfinity_Z (z : Z) : ToIntegerOrInfinity (inject_Z z) = z.
Proof.
  unfold ToIntegerOrInfinity.
  destruct (Qltb (inject_Z z) 0); [apply Qceiling_Z | apply Qfloor_Z].
Qed.

(** *** Doubles *)

Lemma round_double_comp (x y : Q) :
  (x == y)%Q -> round_double x = round_double y.
Proof.
  intros E. unfold round_double. rewrite (Qred_complete x y E). reflexivity.
Qed.

Lemma round_half_even_Z (q : Q) (z : Z) :
  (q == inject_Z z)%Q -> round_half_even q = z.
Proof.
  intros E. unfold round_half_even.
  rewrite (Qfloor_comp _ _ E), Qfloor_Z.
  assert (C : (q - inject_Z z ?= 1 # 2)%Q = Lt).
  { apply (proj1 (Qlt_alt _ _)). rewrite E.
    setoid_replace (inject_Z z - inject_Z z)%Q with 0%Q by ring.
    reflexivity. }
  rewrite C. reflexivity.
Qed.

Lemma Qred_inject_Z (z : Z) : Qred (inject_Z z) = inject_Z z.
Proof.
  unfold Qred, inject_Z.
  pose proof (Z.ggcd_correct_divisors z 1) as D.
  pose proof (Z.ggcd_gcd z 1) as G. rewrite Z.gcd_1_r in G.
  destruct (Z.ggcd z 1) as [g [aa bb]]. cbn [fst] in G. subst g.
  destruct D as [-> B]. rewrite Z.mul_1_l in B. subst bb.
  rewrite Z.mul_1_l. reflexivity.
Qed.

Lemma binade_Z (z : Z) : 0 < z -> binade z 1 = Z.log2 z.
Proof.
  intros P. unfold binade. cbn [Z.log2]. rewrite Z.sub_0_r.
  pose proof (Z.log2_nonneg z) as N.
  destruct (Z.leb_spec 0 (Z.log2 z)); [|lia].
  pose proof (Z.log2_spec z P) as [L _].
  destruct (Z.leb_spec (2 ^ Z.log2 z * 1) z); [reflexivity | lia].
Qed.

Lemma round_double_pos (z : Z) :
  0 < z <= 2 ^ 53 -> round_double (inject_Z z) = inject_Z z.
Proof.
  intros [P B]. unfold round_double. rewrite Qred_inject_Z.
  cbn [Qnum Qden inject_Z].
  rewrite (Z.abs_eq z) by lia.
  destruct (Z.eqb_spec z 0); [lia|].
  rewrite (binade_Z z P).
  pose proof (Z.log2_nonneg z) as N.
  rewrite Z.max_l by lia.
  destruct (Z.leb_spec 0 z); [|lia].
  assert (L : Z.log2 z <= 53).
  { rewrite <- (Z.log2_pow2 53) by lia. apply Z.log2_le_mono. exact B. }
  pose proof (Z.log2_spec z P) as [Lo Hi].
  destruct (Z.leb_spec 52 (Z.log2 z)) as [G|G].
  - f_equal.
    assert (Z.log2 z = 52 \/ Z.log2 z = 53) as [E|E] by lia; rewrite E in *.
    + change (2 ^ (52 - 52)) with 1. rewrite Z.mul_1_r.
      apply round_half_even_Z. change (inject_Z 1) with 1%Q.
      unfold Qeq; cbn; lia.
    + assert (z = 2 ^ 53) by lia. subst z.
      change (2 ^ (53 - 52)) with 2.
      rewrite (round_half_even_Z _ (2 ^ 52)); [reflexivity|].
      unfold Qeq; cbn; lia.
  - assert (K : 0 < 2 ^ (52 - Z.log2 z)) by (apply Z.pow_pos_nonneg; lia).
    rewrite (round_half_even_Z _ (z * 2 ^ (52 - Z.log2 z))).
    + rewrite <- (Qred_inject_Z z). apply Qred_complete.
      rewrite inject_Z_mult. field.
      intros X. unfold Qeq, inject_Z in X. cbn [Qnum Qden] in X. lia.
    + rewrite inject_Z_mult. reflexivity.
Qed.

(** A whole number of magnitude at most 2^53 is a double. *)
Lemma round_double_Z (z : Z) :
  Z.abs z <= 2 ^ 53 -> round_double (inject_Z z) = inject_Z z.
Proof.
  intros B. destruct (Z.lt_trichotomy z 0) as [N|[->|P]].
  - assert (P : 0 < - z <= 2 ^ 53) by lia.
    pose proof (round_double_pos (- z) P) as R.
    unfold round_double in *. rewrite Qred_inject_Z in *.
    cbn [Qnum Qden inject_Z] in *.
    rewrite Z.abs_opp in R.
    destruct (Z.eqb_spec (Z.abs z) 0); [lia|].
    destruct (Z.leb_spec 0 (- z)); [|lia].
    destruct (Z.leb_spec 0 z); [lia|].
    rewrite R. unfold Qopp. cbn. rewrite Z.opp_involutive. reflexivity.
  - reflexivity.
  - apply round_double_pos. lia.
Qed.

(** Sums and products of whole numbers are exact up to 2^53. *)
Lemma Number_add_Z (x y : Q) (a b : Z) :
  (x == inject_Z a)%Q -> (y == inject_Z b)%Q -> Z.abs (a + b) <= 2 ^ 53 ->
  Number_add x y = inject_Z (a + b).
Proof.
  intros X Y B. unfold Number_add.
  rewrite (round_double_comp _ (inject_Z (a + b)))
    by (rewrite X, Y, inject_Z_plus; reflexivity).
  apply round_double_Z, B.
Qed.

Lemma Number_mul_Z (x y : Q) (a b : Z) :
  (x == inject_Z a)%Q -> (y == inject_Z b)%Q -> Z.abs (a * b) <= 2 ^ 53 ->
  Number_mul x y = inject_Z (a * b).
Proof.
  intros X Y B. unfold Number_mul.
  rewrite (round_double_comp _ (inject_Z (a * b)))
    by (rewrite X, Y, inject_Z_mult; reflexivity).
  apply round_double_Z, B.
Qed.

Lemma Number_add_comp (x x' y y' : Q) :
  (x == x')%Q -> (y == y')%Q -> Number_add x y = Number_add x' y'.
Proof.
  intros X Y. apply round_double_comp. rewrite X, Y. reflexivity.
Qed.

Lemma Number_mul_comp (x x' y y' : Q) :
  (x == x')%Q -> (y == y')%Q -> Number_mul x y = Number_mul x' y'.
Proof.
  intros X Y. apply round_double_comp. rewrite X, Y. reflexivity.
Qed.

Lemma Number_div_comp (x x' y y' : Q) :
  (x == x')%Q -> (y == y')%Q -> Number_div x y = Number_div x' y'.
Proof.
  intros X Y. apply round_double_comp. rewrite X, Y. reflexivity.
Qed.

(** *** Dates from numbers *)

Lemma Date_of_number_comp (x y : Q) :
  (x == y)%Q -> Date_of_number x = Date_of_number y.
Proof.
  intros E. unfold Date_of_number, Qltb.
  assert (A : (Qabs x == Qabs y)%Q) by (rewrite E; reflexivity).
  rewrite (Qleb_comp _ _ A 8640000000000000%Q 8640000000000000%Q
             (Qeq_refl _)).
  rewrite (ToIntegerOrInfinity_comp x y E). reflexivity.
Qed.


(** Beyond the range the date is invalid. *)
Lemma Date_of_number_invalid (q : Q) :
  (8640000000000000 < Qabs q)%Q -> Date_of_number q = None.
Proof.
  intros B. unfold Date_of_number.
  rewrite (proj2 (Qltb_lt _ _) B). reflexivity.
Qed.

Lemma Date_of_number_valid (q : Q) :
  (Qabs q <= 8640000000000000)%Q ->
  Date_of_number q = Some (ToIntegerOrInfinity q).
Proof.
  intros B. unfold Date_of_number.
  rewrite (proj2 (Qltb_ge _ _) B). reflexivity.
Qed.

(** [Math.round] picks the nearest integer; halves go up. *)
Lemma Math_round_nearest (q : Q) :
  (q - (1 # 2) < inject_Z (Math_round q))%Q
  /\ (inject_Z (Math_round q) <= q + (1 # 2))%Q.
Proof.
  unfold Math_round. split.
  - pose proof (Qlt_floor (q + (1 # 2))) as L.
    rewrite inject_Z_plus in L.
    change (inject_Z 1) with 1%Q in L. lra.
  - apply Qfloor_le.
Qed.

Lemma Math_round_comp (x y : Q) : (x == y)%Q -> Math_round x = Math_round y.
Proof.
  intros E. unfold Math_round. apply Qfloor_comp. rewrite E. reflexivity.
Qed.

(** ** Validation of interval triggers *)

Section IntervalValidation.

Context `{Host} `{Env}.

Lemma includes_In (keys : list string) (key : string) :
  includes keys key = true <-> In key keys.
Proof.
  unfold includes. rewrite existsb_exists. split.
  - intros [k [I E]]. apply String.eqb_eq in E. subst. exact I.
  - intros I. exists key. split; [exact I | apply String.eqb_refl].
Qed.

(** A block of the validator accepts what is there and at least 0.001. *)
Lemma intervalField_ok (rawConfig : JsObj) (key message : string)
    (value : option Q) :
  intervalField rawConfig key message = Ok value ->
  provided rawConfig key = Ok value
  /\ forall v, value = Some v -> (0.001 <= v)%Q.
Proof.
  unfold intervalField, provided.
  destruct (js_in key rawConfig); simpl.
  - destruct (ensureNumber _ _) as [v|e]; simpl; [|discriminate].
    destruct (Qltb v 0.001) eqn:L; [discriminate|].
    intros E. injection E as <-. split; [reflexivity|].
    intros v' E. injection E as <-. apply Qltb_ge, L.
  - intros E. injection E as <-. split; [reflexivity | discriminate].
Qed.

(** Adding the fields the validator kept is what the scheduler adds. *)
Lemma addIfSet_addMs (total : Q) (value : option Q) (ms : Q -> Q) :
  (forall v, value = Some v -> (0.001 <= v)%Q) ->
  addIfSet total value ms = addMs total value ms.
Proof.
  intros P. destruct value as [v|]; simpl; [|reflexivity].
  assert (T : truthy_number v = true).
  { apply truthy_number_nonzero. specialize (P v eq_refl). lra. }
  rewrite T. reflexivity.
Qed.

(** What a successful validation says of its input and of its result. *)
Lemma validateIntervalConfig_ok (rawConfig : JsObj)
    (config : IntervalTriggerConfig) :
  validateIntervalConfig rawConfig = Ok config ->
  (forall key, In key (Object_keys rawConfig) -> In key allowedKeys)
  /\ provided rawConfig "seconds" = Ok (seconds config)
  /\ provided rawConfig "minutes" = Ok (minutes config)
  /\ provided rawConfig "hours" = Ok (hours config)
  /\ provided rawConfig "days" = Ok (days config)
  /\ (forall v,
        In (Some v)
           [seconds config; minutes config; hours config; days config] ->
        (0.001 <= v)%Q)
  /\ requested_duration rawConfig = Ok (computeIntervalMs config)
  /\ (0 < computeIntervalMs config)%Q.
Proof.
  unfold validateIntervalConfig.
  destruct (find _ (Object_keys rawConfig)) eqn:F; [discriminate|].
  destruct (intervalField rawConfig "seconds" _) as [s|] eqn:Es;
    simpl; [|discriminate].
  destruct (intervalField rawConfig "minutes" _) as [m|] eqn:Em;
    simpl; [|discriminate].
  destruct (intervalField rawConfig "hours" _) as [h|] eqn:Eh;
    simpl; [|discriminate].
  destruct (intervalField rawConfig "days" _) as [d|] eqn:Ed;
    simpl; [|discriminate].
  destruct (Qle_bool _ 0) eqn:T; [discriminate|].
  intros E. injection E as <-. simpl.
  apply intervalField_ok in Es, Em, Eh, Ed.
  destruct Es as [Ps Ls], Em as [Pm Lm], Eh as [Ph Lh], Ed as [Pd Ld].
  assert (C : computeIntervalMs
                {| seconds := s; minutes := m; hours := h; days := d |}
              = addMs (addMs (addMs (addMs 0 s seconds_ms) m minutes_ms)
                             h hours_ms)
                      d days_ms).
  { unfold computeIntervalMs. simpl.
    rewrite !addIfSet_addMs by assumption. reflexivity. }
  refine (conj _ (conj Ps (conj Pm (conj Ph (conj Pd (conj _ (conj _ _))))))).
  - intros key I.
    apply (proj1 (includes_In allowedKeys key)).
    pose proof (find_none _ _ F key I) as N. simpl in N.
    apply negb_false_iff in N. exact N.
  - intros v [E|[E|[E|[E|[]]]]]; auto.
  - unfold requested_duration. rewrite Ps, Pm, Ph, Pd. simpl.
    rewrite C. reflexivity.
  - rewrite C. apply Qle_bool_gt, T.
Qed.

(** A key the validator does not know makes it throw. *)
Lemma validateIntervalConfig_unknown_key (rawConfig : JsObj) (key : string) :
  In key (Object_keys rawConfig) -> ~ In key allowedKeys ->
  exists e, validateIntervalConfig rawConfig = Throw e.
Proof.
  intros I N.
  destruct (validateIntervalConfig rawConfig) as [config|e] eqn:V.
  - apply validateIntervalConfig_ok in V. destruct V as [K _].
    elim N. apply K, I.
  - exists e. reflexivity.
Qed.

(** A failed validation fails the tool call before anything is done. *)
Lemma create_task_invalid_interval (args rawConfig : JsObj) (e : JsError)
    (w : World) :
  js_get "trigger_type" args = JsString "interval" ->
  js_get "trigger_config" args = JsObject rawConfig ->
  validateIntervalConfig rawConfig = Throw e ->
  exists msg, create_task args w = (Ok (ToolFailure msg), w).
Proof.
  intros T C V. unfold create_task, try_catch, bind, lift.
  destruct (js_get "name" args) as [| |b|q|s|items|fields];
    try (eexists; reflexivity).
  destruct (String.length (trim s) =? 0)%nat; [eexists; reflexivity|].
  rewrite T, C. simpl. unfold bind, lift. rewrite V.
  eexists. reflexivity.
Qed.

(** C6.  For an interval trigger, [create_task] validates the raw
    configuration first.  The validation throws when the configuration
    has a key other than seconds, minutes, hours and days, and when its
    fields sum to no positive duration (they are not all numbers, or
    their sum is not positive); when it throws, the tool call
    answers with an error and leaves the store (and the whole state)
    as it was.  When the validation succeeds, every field it was given is
    a positive number, and the duration the scheduler computes from the
    result is the positive sum that was asked for. *)
Theorem interval_validation (rawConfig : JsObj) :
  ((exists key, In key (Object_keys rawConfig) /\ ~ In key allowedKeys) ->
   exists e, validateIntervalConfig rawConfig = Throw e)
  /\ (~ (exists total,
           requested_duration rawConfig = Ok total /\ (0 < total)%Q) ->
      exists e, validateIntervalConfig rawConfig = Throw e)
  /\ (forall e args w,
        validateIntervalConfig rawConfig = Throw e ->
        js_get "trigger_type" args = JsString "interval" ->
        js_get "trigger_config" args = JsObject rawConfig ->
        exists msg, create_task args w = (Ok (ToolFailure msg), w))
  /\ (forall config,
        validateIntervalConfig rawConfig = Ok config ->
        provided rawConfig "seconds" = Ok (seconds config)
        /\ provided rawConfig "minutes" = Ok (minutes config)
        /\ provided rawConfig "hours" = Ok (hours config)
        /\ provided rawConfig "days" = Ok (days config)
        /\ (forall v,
              In (Some v)
                 [seconds config; minutes config; hours config; days config] ->
              (0 < v)%Q)
        /\ requested_duration rawConfig = Ok (computeIntervalMs config)
        /\ (0 < computeIntervalMs config)%Q).
Proof.
  split; [|split; [|split]].
  - intros [key [I N]].
    exact (validateIntervalConfig_unknown_key rawConfig key I N).
  - intros N.
    destruct (validateIntervalConfig rawConfig) as [config|e] eqn:V.
    + apply validateIntervalConfig_ok in V.
      destruct V as (_ & _ & _ & _ & _ & _ & R & P).
      elim N. exists (computeIntervalMs config). split; assumption.
    + exists e. reflexivity.
  - intros e args w V T C.
    exact (create_task_invalid_interval args rawConfig e w T C V).
  - intros config V.
    apply validateIntervalConfig_ok in V.
    destruct V as (_ & Ps & Pm & Ph & Pd & F & R & P).
    refine (conj Ps (conj Pm (conj Ph (conj Pd (conj _ (conj R P)))))).
    intros v I. specialize (F v I). lra.
Qed.

End IntervalValidation.

(** ** Validation of date triggers *)

Section DateValidation.

Context `{Host}.

Lemma js_get_delete_other (key field : string) (o : JsObj) :
  key <> field -> js_get key (js_delete field o) = js_get key o.
Proof.
  intros N. unfold js_get, js_delete.
  induction o as [|[k v] o IH]; simpl; [reflexivity|].
  destruct (String.eqb field k) eqn:F; simpl.
  - apply String.eqb_eq in F. subst k.
    destruct (String.eqb key field) eqn:K.
    + apply String.eqb_eq in K. contradiction.
    + exact IH.
  - destruct (String.eqb key k); [reflexivity | exact IH].
Qed.

Lemma delay_of_delete_other (key field : string) (o : JsObj) :
  key <> field -> delay_of (js_delete field o) key = delay_of o key.
Proof.
  intros N. unfold delay_of. rewrite js_get_delete_other by exact N.
  reflexivity.
Qed.




Lemma Qltb_comp (a x y : Q) : (x == y)%Q -> Qltb a x = Qltb a y.
Proof.
  intros E. unfold Qltb.
  rewrite (Qleb_comp x y E a a (Qeq_refl a)). reflexivity.
Qed.







End DateValidation.

(** ** The next run of an interval trigger *)

Section IntervalTrigger.

Context `{Host}.

Lemma TaskStatus_eqb_eq (a b : TaskStatus) :
  TaskStatus_eqb a b = true <-> a = b.
Proof. destruct a, b; simpl; split; intros E; congruence. Qed.

Lemma TaskStatus_eqb_neq (a b : TaskStatus) :
  TaskStatus_eqb a b = false <-> a <> b.
Proof. destruct a, b; simpl; split; intros E; congruence. Qed.

(** The milliseconds of so many whole seconds, minutes, hours and days
    are exact. *)
Lemma Number_mul_whole (y : Q) (w k : Z) :
  (y == inject_Z w)%Q -> 0 <= w -> 0 <= k -> w * k <= 2 ^ 53 ->
  Number_mul y (inject_Z k) = inject_Z (w * k).
Proof.
  intros E Pw Pk B. apply (Number_mul_Z y _ w k E (Qeq_refl _)).
  rewrite Z.abs_eq by (apply Z.mul_nonneg_nonneg; assumption). exact B.
Qed.

Lemma seconds_ms_whole (x : Q) (v : Z) :
  (x == inject_Z v)%Q -> 0 <= v -> v * 1000 <= 2 ^ 53 ->
  seconds_ms x = inject_Z (v * 1000).
Proof.
  intros E P B. unfold seconds_ms. change 1000%Q with (inject_Z 1000).
  apply Number_mul_whole; try assumption. lia.
Qed.

Lemma minutes_ms_whole (x : Q) (v : Z) :
  (x == inject_Z v)%Q -> 0 <= v -> v * (60 * 1000) <= 2 ^ 53 ->
  minutes_ms x = inject_Z (v * (60 * 1000)).
Proof.
  intros E P B. unfold minutes_ms.
  change 1000%Q with (inject_Z 1000). change 60%Q with (inject_Z 60).
  rewrite (Number_mul_whole x v 60 E) by lia.
  rewrite (Number_mul_whole _ (v * 60) 1000 (Qeq_refl _)) by lia.
  f_equal. lia.
Qed.

Lemma hours_ms_whole (x : Q) (v : Z) :
  (x == inject_Z v)%Q -> 0 <= v -> v * (60 * 60 * 1000) <= 2 ^ 53 ->
  hours_ms x = inject_Z (v * (60 * 60 * 1000)).
Proof.
  intros E P B. unfold hours_ms.
  change 1000%Q with (inject_Z 1000). change 60%Q with (inject_Z 60).
  rewrite (Number_mul_whole x v 60 E) by lia.
  rewrite (Number_mul_whole _ (v * 60) 60 (Qeq_refl _)) by lia.
  rewrite (Number_mul_whole _ (v * 60 * 60) 1000 (Qeq_refl _)) by lia.
  f_equal. lia.
Qed.

Lemma days_ms_whole (x : Q) (v : Z) :
  (x == inject_Z v)%Q -> 0 <= v -> v * (24 * 60 * 60 * 1000) <= 2 ^ 53 ->
  days_ms x = inject_Z (v * (24 * 60 * 60 * 1000)).
Proof.
  intros E P B. unfold days_ms.
  change 1000%Q with (inject_Z 1000). change 60%Q with (inject_Z 60).
  change 24%Q with (inject_Z 24).
  rewrite (Number_mul_whole x v 24 E) by lia.
  rewrite (Number_mul_whole _ (v * 24) 60 (Qeq_refl _)) by lia.
  rewrite (Number_mul_whole _ (v * 24 * 60) 60 (Qeq_refl _)) by lia.
  rewrite (Number_mul_whole _ (v * 24 * 60 * 60) 1000 (Qeq_refl _)) by lia.
  f_equal. lia.
Qed.

Lemma addIfSet_whole (acc : Q) (value : option Q) (ms : Q -> Q) (a v k : Z) :
  (acc == inject_Z a)%Q -> (or_zero value == inject_Z v)%Q ->
  (forall x, value = Some x -> ms x = inject_Z (v * k)) ->
  0 <= a -> 0 <= v * k -> a + v * k <= 2 ^ 53 ->
  (addIfSet acc value ms == inject_Z (a + v * k))%Q.
Proof.
  intros A V M Pa Pv B. destruct value as [x|]; cbn [addIfSet or_zero] in *.
  - unfold truthy_number. destruct (Qeq_bool x 0) eqn:Z0; cbn [negb].
    + apply Qeq_bool_iff in Z0. rewrite Z0 in V.
      change 0%Q with (inject_Z 0) in V.
      rewrite <- (proj1 (inject_Z_injective 0 v) V), Z.mul_0_l, Z.add_0_r.
      exact A.
    + rewrite (M x eq_refl).
      rewrite (Number_add_Z acc _ a (v * k) A (Qeq_refl _)) by lia.
      reflexivity.
  - change 0%Q with (inject_Z 0) in V.
    rewrite <- (proj1 (inject_Z_injective 0 v) V), Z.mul_0_l, Z.add_0_r.
    exact A.
Qed.

(** The duration of an interval of so many whole seconds, minutes, hours
    and days is their milliseconds. *)
Lemma computeIntervalMs_whole (config : IntervalTriggerConfig) (s m h d : Z) :
  (or_zero (seconds config) == inject_Z s)%Q ->
  (or_zero (minutes config) == inject_Z m)%Q ->
  (or_zero (hours config) == inject_Z h)%Q ->
  (or_zero (days config) == inject_Z d)%Q ->
  0 <= s -> 0 <= m -> 0 <= h -> 0 <= d ->
  whole_duration s m h d <= 2 ^ 53 ->
  (computeIntervalMs config == inject_Z (whole_duration s m h d))%Q.
Proof.
  intros Es Em Eh Ed Ps Pm Ph Pd B.
  unfold computeIntervalMs, whole_duration in *. cbv zeta.
  apply addIfSet_whole; try assumption; try lia.
  - apply addIfSet_whole; try assumption; try lia.
    + apply addIfSet_whole; try assumption; try lia.
      * change 0%Q with (inject_Z 0).
        rewrite <- (Z.add_0_l (s * 1000)).
        apply addIfSet_whole; try assumption; try lia; [reflexivity|].
        intros x E. apply seconds_ms_whole; [|exact Ps|lia].
        rewrite E in Es. exact Es.
      * intros x E. apply minutes_ms_whole; [|exact Pm|lia].
        rewrite E in Em. exact Em.
    + intros x E. apply hours_ms_whole; [|exact Ph|lia].
      rewrite E in Eh. exact Eh.
  - intros x E. apply days_ms_whole; [|exact Pd|lia].
    rewrite E in Ed. exact Ed.
Qed.

Lemma existing_after_planned (task : TaskRecord) (fromDate planned : Z) :
  planned_instant task = Some planned -> fromDate < planned ->
  existing_after task fromDate = Some (Some planned).
Proof.
  unfold planned_instant, existing_after.
  destruct (truthy_opt_string (next_run task)); [|discriminate].
  intros -> L. simpl.
  destruct (Z.ltb_spec fromDate planned); [reflexivity | lia].
Qed.

Lemma existing_after_none (task : TaskRecord) (fromDate : Z) :
  (forall planned, planned_instant task = Some planned -> planned <= fromDate) ->
  existing_after task fromDate = None.
Proof.
  unfold planned_instant, existing_after. intros P.
  destruct (truthy_opt_string (next_run task)); [|reflexivity].
  destruct (Date_of_opt_string (next_run task)) as [p|]; simpl;
    [|reflexivity].
  specialize (P p eq_refl).
  destruct (Z.ltb_spec fromDate p); [lia | reflexivity].
Qed.

(** C1, as the code has it.  For an interval task that is enabled and
    not completed: a planned fire that lies strictly after the reference
    instant is returned as it is (as the very string, when the string is
    the print of the instant).  When there is none, the duration of the interval
    decides: with a positive duration the next run is the date made from
    the reference instant plus the duration, that is the sum of the two
    doubles cut to whole milliseconds, and printing it throws a
    RangeError when the sum is out of the range of dates; with a
    duration that is not positive there is no next run.  The duration is
    the sum of the seconds, minutes, hours and days in milliseconds: for
    whole numbers of them it is exact, and the next run is the reference
    instant plus these milliseconds. *)
Theorem interval_next_run (task : TaskRecord) (fromDate : Z) :
  trigger_type task = interval ->
  enabled task = true ->
  status task <> completed ->
  let config := config_interval (trigger_config task) in
  let sum := Number_add (inject_Z fromDate) (computeIntervalMs config) in
  (forall planned,
     planned_instant task = Some planned -> fromDate < planned ->
     computeNextRun task fromDate = Ok (Some (Date_iso planned))
     /\ (next_run task = Some (Date_iso planned) ->
         computeNextRun task fromDate = Ok (next_run task)))
  /\ ((forall planned,
         planned_instant task = Some planned -> planned <= fromDate) ->
      ((0 < computeIntervalMs config)%Q -> time_value sum ->
       computeNextRun task fromDate
       = Ok (Some (Date_iso (ToIntegerOrInfinity sum))))
      /\ ((0 < computeIntervalMs config)%Q -> ~ time_value sum ->
          computeNextRun task fromDate = Throw RangeError_invalid_time)
      /\ ((computeIntervalMs config <= 0)%Q ->
          computeNextRun task fromDate = Ok None))
  /\ (forall s m h d : Z,
        (or_zero (seconds config) == inject_Z s)%Q ->
        (or_zero (minutes config) == inject_Z m)%Q ->
        (or_zero (hours config) == inject_Z h)%Q ->
        (or_zero (days config) == inject_Z d)%Q ->
        0 <= s -> 0 <= m -> 0 <= h -> 0 <= d ->
        0 <= fromDate ->
        fromDate + whole_duration s m h d <= 8640000000000000 ->
        (computeIntervalMs config == inject_Z (whole_duration s m h d))%Q
        /\ time_value sum
        /\ ToIntegerOrInfinity sum = fromDate + whole_duration s m h d).
Proof.
  intros T E S config sum. apply TaskStatus_eqb_neq in S.
  split; [|split].
  - intros planned P L. unfold computeNextRun. rewrite T, E, S. simpl.
    rewrite (existing_after_planned task fromDate planned P L). simpl.
    split; [reflexivity|]. intros ->. reflexivity.
  - intros P. unfold computeNextRun. rewrite T, E, S. cbn [negb orb].
    rewrite (existing_after_none task fromDate P).
    fold config. fold sum.
    split; [|split].
    + intros D V. rewrite (proj2 (Qle_bool_gt _ _) D).
      rewrite (Date_of_number_valid sum V). reflexivity.
    + intros D V. rewrite (proj2 (Qle_bool_gt _ _) D).
      rewrite (Date_of_number_invalid sum); [reflexivity|].
      apply Qnot_le_lt. exact V.
    + intros D. rewrite (proj2 (Qle_bool_iff _ _) D). reflexivity.
  - intros s m h d Es Em Eh Ed Ps Pm Ph Pd Pf B.
    assert (Pw : 0 <= whole_duration s m h d)
      by (unfold whole_duration; lia).
    assert (C : (computeIntervalMs config
                 == inject_Z (whole_duration s m h d))%Q).
    { apply computeIntervalMs_whole; try assumption. lia. }
    assert (N : sum = inject_Z (fromDate + whole_duration s m h d)).
    { unfold sum. apply Number_add_Z; [reflexivity | exact C | lia]. }
    split; [exact C|]. rewrite N. split.
    + unfold time_value.
      change (Qabs (inject_Z (fromDate + whole_duration s m h d)))
        with (inject_Z (Z.abs (fromDate + whole_duration s m h d))).
      change 8640000000000000%Q with (inject_Z 8640000000000000).
      rewrite <- Zle_Qle. lia.
    + apply ToIntegerOrInfinity_Z.
Qed.

(** What [computeNextRun] throws is the RangeError of [toISOString], and
    it throws it on two kinds of task only: an interval task whose next
    run is out of the range of dates, and a date task whose [run_date]
    names no instant. *)
Lemma computeNextRun_throws (task : TaskRecord) (fromDate : Z) (e : JsError) :
  computeNextRun task fromDate = Throw e ->
  e = RangeError_invalid_time
  /\ enabled task = true
  /\ status task <> completed
  /\ match trigger_type task with
     | interval =>
         ~ time_value
             (Number_add (inject_Z fromDate)
                (computeIntervalMs (config_interval (trigger_config task))))
     | cron => False
     | date =>
         Date_of_opt_string (config_run_date (trigger_config task)) = None
     end.
Proof.
  unfold computeNextRun.
  destruct (enabled task); cbn [negb orb]; [|discriminate].
  destruct (TaskStatus_eqb (status task) completed) eqn:S; [discriminate|].
  apply TaskStatus_eqb_neq in S.
  assert (X : forall d : Date,
            existing_after task fromDate = Some d ->
            res_bind (toISOString d) (fun iso => Ok (Some iso)) = Throw e ->
            False).
  { intros d A. unfold existing_after in A.
    destruct (truthy_opt_string (next_run task)); [|discriminate].
    destruct (Date_of_opt_string (next_run task)) as [t|];
      cbn [Date_gt] in A; [|discriminate].
    destruct (fromDate <? t); [|discriminate].
    injection A as <-. discriminate. }
  destruct (trigger_type task).
  - destruct (existing_after task fromDate) as [d|] eqn:A.
    + intros R. destruct (X d eq_refl R).
    + destruct (Qle_bool _ 0); [discriminate|]. cbv zeta.
      unfold Date_of_number.
      destruct (Qltb 8640000000000000 _) eqn:L; [|discriminate].
      cbn. intros R. injection R as <-.
      refine (conj eq_refl (conj eq_refl (conj S _))).
      apply Qlt_not_le, Qltb_lt, L.
  - destruct (existing_after task fromDate) as [d|] eqn:A.
    + intros R. destruct (X d eq_refl R).
    + destruct (config_expression (trigger_config task)) as [c|];
        [|discriminate].
      destruct (cron_next c fromDate); discriminate.
  - destruct (Date_of_opt_string _) as [t|]; cbn [Date_le].
    + destruct (t <=? fromDate); discriminate.
    + cbn. intros R. injection R as <-.
      refine (conj eq_refl (conj eq_refl (conj S eq_refl))).
Qed.

End IntervalTrigger.

(** ** The store: [upsert], [get] and [list] *)

Section StoreProperties.

Context `{Host}.

Lemma entry_of_fresh (taskId : string) (entries : list TaskHistoryEntry)
    (seq : Z) :
  map row_content (fresh_rows taskId entries seq)
  = map (fun entry => (taskId, entry)) entries.
Proof.
  revert seq. induction entries as [|[r s m] entries IH]; intros seq; simpl.
  - reflexivity.
  - rewrite IH. reflexivity.
Qed.

Lemma insert_history_fresh (taskId : string) (entries : list TaskHistoryEntry)
    (rows : list HistoryRow) (seq : Z) :
  insert_history taskId entries rows seq
  = ((rows ++ fresh_rows taskId entries seq)%list,
     seq + Z.of_nat (length entries)).
Proof.
  revert rows seq. induction entries as [|entry entries IH];
    intros rows seq; simpl insert_history.
  - rewrite app_nil_r. f_equal. simpl. lia.
  - rewrite IH. rewrite <- app_assoc. simpl. f_equal. lia.
Qed.

Lemma delete_history_fresh (taskId : string) (entries : list TaskHistoryEntry)
    (seq : Z) :
  delete_history taskId (fresh_rows taskId entries seq) = [].
Proof.
  revert seq. induction entries as [|entry entries IH]; intros seq; simpl.
  - reflexivity.
  - rewrite String.eqb_refl. simpl. apply IH.
Qed.

Lemma delete_history_twice (taskId : string) (rows : list HistoryRow) :
  delete_history taskId (delete_history taskId rows)
  = delete_history taskId rows.
Proof.
  unfold delete_history. induction rows as [|r rows IH]; simpl.
  - reflexivity.
  - destruct (negb (String.eqb (task_id r) taskId)) eqn:E; simpl.
    + rewrite E, IH. reflexivity.
    + exact IH.
Qed.

Lemma own_rows_deleted (taskId : string) (rows : list HistoryRow) :
  filter (fun r => String.eqb (task_id r) taskId) (delete_history taskId rows)
  = [].
Proof.
  unfold delete_history. induction rows as [|r rows IH]; simpl.
  - reflexivity.
  - destruct (String.eqb (task_id r) taskId) eqn:E; simpl.
    + exact IH.
    + rewrite E. exact IH.
Qed.

Lemma own_rows_fresh (taskId : string) (entries : list TaskHistoryEntry)
    (seq : Z) :
  filter (fun r => String.eqb (task_id r) taskId)
         (fresh_rows taskId entries seq)
  = fresh_rows taskId entries seq.
Proof.
  revert seq. induction entries as [|entry entries IH]; intros seq; simpl.
  - reflexivity.
  - rewrite String.eqb_refl, IH. reflexivity.
Qed.

(** The history of a task after [upsert] with entries: those entries. *)
Lemma stored_history_upsert (db : Store) (task : TaskRecord)
    (entries : list TaskHistoryEntry) :
  history task = Some entries ->
  stored_history (upsert db task) (id task) = entries.
Proof.
  intros E. unfold stored_history, upsert. rewrite E.
  rewrite insert_history_fresh. simpl.
  rewrite filter_app, own_rows_deleted, own_rows_fresh. simpl.
  rewrite <- (map_map row_content snd), entry_of_fresh, map_map. simpl.
  apply map_id.
Qed.


Lemma insert_or_update_twice (row : TaskRow) (rows : list TaskRow) :
  insert_or_update row (insert_or_update row rows)
  = insert_or_update row rows.
Proof.
  unfold insert_or_update.
  destruct (existsb _ rows) eqn:E.
  - assert (E' : existsb (fun r => String.eqb (row_id r) (row_id row))
                   (map (fun r => if String.eqb (row_id r) (row_id row)
                                  then row else r) rows) = true).
    { apply existsb_exists in E. destruct E as [r [I E]].
      apply existsb_exists. exists row. split; [|apply String.eqb_refl].
      apply in_map_iff. exists r. rewrite E. split; [reflexivity | exact I]. }
    rewrite E', map_map. apply map_ext. intros r.
    destruct (String.eqb (row_id r) (row_id row)) eqn:R.
    + rewrite String.eqb_refl. reflexivity.
    + rewrite R. reflexivity.
  - rewrite existsb_app. simpl. rewrite String.eqb_refl, orb_true_r.
    rewrite map_app. simpl. rewrite String.eqb_refl. f_equal.
    rewrite <- (map_id rows) at 2. apply map_ext_in. intros r I.
    destruct (String.eqb (row_id r) (row_id row)) eqn:R; [|reflexivity].
    assert (X : existsb (fun r => String.eqb (row_id r) (row_id row)) rows
                = true)
      by (apply existsb_exists; exists r; split; assumption).
    congruence.
Qed.

Lemma cons_content (x y : HistoryRow) (a b : list HistoryRow) :
  map row_content (x :: a) = map row_content (y :: b) ->
  row_content x = row_content y /\ map row_content a = map row_content b.
Proof.
  intros E. split.
  - exact (f_equal (hd (row_content x)) E).
  - exact (f_equal (@tl _) E).
Qed.

Lemma same_content_filter (p : string -> bool) (a b : list HistoryRow) :
  same_content a b ->
  same_content (filter (fun r => p (task_id r)) a)
               (filter (fun r => p (task_id r)) b).
Proof.
  unfold same_content. revert b.
  induction a as [|x a IH]; intros [|y b] E; try discriminate.
  - reflexivity.
  - apply cons_content in E. destruct E as [Exy E]. cbn [map filter].
    assert (T : task_id x = task_id y)
      by (unfold row_content in Exy; congruence).
    rewrite T. destruct (p (task_id y)); cbn [map];
      [f_equal; [exact Exy|] |]; apply IH, E.
Qed.

Lemma same_content_insert (x y : HistoryRow) (a b : list HistoryRow) :
  row_content x = row_content y -> same_content a b ->
  same_content (insert_by_run_at x a) (insert_by_run_at y b).
Proof.
  unfold same_content. intros Exy. revert b.
  assert (Rxy : hist_run_at x = hist_run_at y)
    by (unfold row_content, entry_of_row in Exy; congruence).
  induction a as [|u a IH]; intros [|v b] E; try discriminate.
  - cbn [map insert_by_run_at]. rewrite Exy. reflexivity.
  - apply cons_content in E. destruct E as [Euv E].
    cbn [map insert_by_run_at].
    assert (Ruv : hist_run_at u = hist_run_at v)
      by (unfold row_content, entry_of_row in Euv; congruence).
    rewrite Rxy, Ruv.
    destruct (String.ltb (hist_run_at y) (hist_run_at v)); cbn [map].
    + rewrite Euv. f_equal. apply IH, E.
    + rewrite Exy, Euv, E. reflexivity.
Qed.

Lemma same_content_order (a b : list HistoryRow) :
  same_content a b ->
  same_content (order_by_run_at_desc a) (order_by_run_at_desc b).
Proof.
  unfold order_by_run_at_desc. revert b.
  induction a as [|x a IH]; intros [|y b] E; unfold same_content in E;
    try discriminate.
  - reflexivity.
  - apply cons_content in E. destruct E as [Exy E]. cbn [fold_right].
    apply same_content_insert; [exact Exy|]. apply IH, E.
Qed.

(** What [loadHistory] gives depends on what the rows say, not on their
    keys. *)
Lemma loadHistory_content (db1 db2 : Store) (taskIds : list string)
    (key : string) :
  same_content (task_history db1) (task_history db2) ->
  loadHistory db1 taskIds key = loadHistory db2 taskIds key.
Proof.
  intros S. unfold loadHistory. destruct taskIds as [|t ts]; [reflexivity|].
  pose proof (same_content_filter (fun k => String.eqb k key) _ _
                (same_content_order _ _
                   (same_content_filter
                      (fun k => existsb (String.eqb k) (t :: ts)) _ _ S)))
    as F.
  unfold same_content in F.
  match type of F with
  | map _ ?a = map _ ?b => set (r1 := a) in *; set (r2 := b) in *
  end.
  assert (E : map entry_of_row r1 = map entry_of_row r2).
  { transitivity (map snd (map row_content r1));
      [rewrite map_map; reflexivity|].
    rewrite F, map_map. reflexivity. }
  destruct r1, r2; simpl in F; try discriminate; [reflexivity|].
  rewrite E. reflexivity.
Qed.

Lemma get_content (db1 db2 : Store) (taskId : string) :
  tasks db1 = tasks db2 ->
  same_content (task_history db1) (task_history db2) ->
  get db1 taskId = get db2 taskId.
Proof.
  intros T S. unfold get, find_row. rewrite T.
  destruct (find _ (tasks db2)); [|reflexivity].
  rewrite (loadHistory_content db1 db2 _ _ S). reflexivity.
Qed.

Lemma list_tasks_content (db1 db2 : Store) :
  tasks db1 = tasks db2 ->
  same_content (task_history db1) (task_history db2) ->
  list_tasks db1 = list_tasks db2.
Proof.
  intros T S. unfold list_tasks. rewrite T.
  destruct (order_by_created_at (tasks db2)) as [|r rows]; [reflexivity|].
  apply map_ext. intros row.
  rewrite (loadHistory_content db1 db2 _ _ S). reflexivity.
Qed.

Lemma upsert_twice_tasks (db : Store) (task : TaskRecord) :
  tasks (upsert (upsert db task) task) = tasks (upsert db task).
Proof.
  unfold upsert. destruct (history task) as [entries|].
  - rewrite !insert_history_fresh. simpl. apply insert_or_update_twice.
  - simpl. apply insert_or_update_twice.
Qed.

Lemma upsert_twice_history (db : Store) (task : TaskRecord) :
  same_content (task_history (upsert (upsert db task) task))
               (task_history (upsert db task)).
Proof.
  unfold upsert, same_content. destruct (history task) as [entries|].
  - rewrite !insert_history_fresh. simpl.
    unfold delete_history at 1. rewrite filter_app.
    fold (delete_history (id task) (delete_history (id task) (task_history db))).
    fold (delete_history (id task)
            (fresh_rows (id task) entries (history_seq db))).
    rewrite delete_history_twice, delete_history_fresh, app_nil_r.
    rewrite !map_app, !entry_of_fresh. reflexivity.
  - reflexivity.
Qed.

(** C9.  Writing the same task twice leaves a store that [get] and [list]
    cannot tell from the store after writing it once; and after a write
    that carries a history array, the history rows of the task are the
    entries of that array, in its order, whatever was there before. *)
Theorem upsert_idempotent (db : Store) (task : TaskRecord) :
  (forall taskId,
     get (upsert (upsert db task) task) taskId = get (upsert db task) taskId)
  /\ list_tasks (upsert (upsert db task) task) = list_tasks (upsert db task)
  /\ (forall entries,
        history task = Some entries ->
        stored_history (upsert db task) (id task) = entries).
Proof.
  split; [|split].
  - intros taskId. apply get_content.
    + apply upsert_twice_tasks.
    + apply upsert_twice_history.
  - apply list_tasks_content.
    + apply upsert_twice_tasks.
    + apply upsert_twice_history.
  - intros entries. apply stored_history_upsert.
Qed.

End StoreProperties.

(** ** The store: partial updates *)

Section StoreUpdates.

Context `{Host}.

Lemma find_row_map (f : TaskRow -> TaskRow) (db : Store)
    (history : list HistoryRow) (seq : Z) (taskId : string) :
  (forall r, row_id (f r) = row_id r) ->
  find_row {| tasks := map f (tasks db); task_history := history;
              history_seq := seq |} taskId
  = option_map f (find_row db taskId).
Proof.
  intros I. unfold find_row. simpl.
  induction (tasks db) as [|r rows IH]; simpl; [reflexivity|].
  rewrite I. destruct (String.eqb (row_id r) taskId); [reflexivity | exact IH].
Qed.

Lemma find_row_id (db : Store) (taskId : string) (row : TaskRow) :
  find_row db taskId = Some row -> row_id row = taskId.
Proof.
  unfold find_row. intros F. apply find_some in F.
  apply String.eqb_eq, F.
Qed.

Lemma patch_fields_zero (p : StatusPatch) :
  patch_fields p = 0%nat ->
  patch_last_run p = None /\ patch_last_status p = None
  /\ patch_last_message p = None /\ patch_next_run p = None.
Proof.
  unfold patch_fields.
  destruct (patch_last_run p), (patch_last_status p),
    (patch_last_message p), (patch_next_run p); simpl;
    intros E; try discriminate; repeat split; reflexivity.
Qed.

Lemma written_or_else {A : Type} (patched old : option A) :
  written patched old (or_else patched old).
Proof. destruct patched; reflexivity. Qed.

(** C7, as the code has it.  [updateStatus] with a patch that has at
    least one field writes the fields of the patch and [updated_at], and
    nothing else: the other columns of the row, the other rows and the
    history keep their values.  With an empty patch it returns before any
    write, and the store is as it was, [updated_at] included. *)
Theorem updateStatus_frame (db : Store) (taskId : string) (p : StatusPatch)
    (now : Z) :
  (patch_fields p = 0%nat -> updateStatus db taskId p now = db)
  /\ (patch_fields p <> 0%nat ->
      forall row,
        find_row db taskId = Some row ->
        exists row',
          find_row (updateStatus db taskId p now) taskId = Some row'
          /\ written (patch_last_run p) (row_last_run row) (row_last_run row')
          /\ written (patch_last_status p) (row_last_status row)
                     (row_last_status row')
          /\ written (patch_last_message p) (row_last_message row)
                     (row_last_message row')
          /\ written (patch_next_run p) (row_next_run row) (row_next_run row')
          /\ row_updated_at row' = Date_iso now
          /\ same_fixed_columns row row')
  /\ (forall other,
        other <> taskId ->
        find_row (updateStatus db taskId p now) other = find_row db other)
  /\ task_history (updateStatus db taskId p now) = task_history db.
Proof.
  unfold updateStatus. split; [|split; [|split]].
  - intros Z0. rewrite Z0. reflexivity.
  - intros N row F. apply Nat.eqb_neq in N. rewrite N.
    rewrite find_row_map
      by (intros r; destruct (String.eqb (row_id r) taskId); reflexivity).
    rewrite F. simpl. rewrite (find_row_id db taskId row F).
    rewrite String.eqb_refl. eexists. split; [reflexivity|]. simpl.
    repeat split; try apply written_or_else;
      exact (find_row_id db taskId row F).
  - intros other N.
    destruct (patch_fields p =? 0)%nat; [reflexivity|].
    rewrite find_row_map
      by (intros r; destruct (String.eqb (row_id r) taskId); reflexivity).
    destruct (find_row db other) as [row|] eqn:F; [|reflexivity]. simpl.
    rewrite (find_row_id db other row F).
    destruct (String.eqb other taskId) eqn:E; [|reflexivity].
    apply String.eqb_eq in E. contradiction.
  - destruct (patch_fields p =? 0)%nat; reflexivity.
Qed.

(** [storage.clearHistory] drops the history rows of the task and sets
    [last_run], [last_status] and [last_message] to NULL; it stamps
    [updated_at] and leaves the other columns alone. *)
Lemma clearHistory_row (db : Store) (taskId : string) (now : Z)
    (row : TaskRow) :
  find_row db taskId = Some row ->
  stored_history (fst (clearHistory db taskId now)) taskId = []
  /\ exists row',
       find_row (fst (clearHistory db taskId now)) taskId = Some row'
       /\ row_last_run row' = None
       /\ row_last_status row' = None
       /\ row_last_message row' = None
       /\ row_next_run row' = row_next_run row
       /\ row_updated_at row' = Date_iso now
       /\ same_fixed_columns row row'.
Proof.
  intros F. unfold clearHistory. cbn [fst]. split.
  - unfold stored_history. cbn [task_history].
    rewrite own_rows_deleted. reflexivity.
  - rewrite find_row_map
      by (intros r; destruct (String.eqb (row_id r) taskId); reflexivity).
    rewrite F. simpl. rewrite (find_row_id db taskId row F).
    rewrite String.eqb_refl. eexists. split; [reflexivity|]. simpl.
    repeat split. exact (find_row_id db taskId row F).
Qed.

End StoreUpdates.

(** ** The scheduler: running a task *)

(** Reads a field through the assignments made to a task. *)
Ltac task_fields :=
  unfold mark_running, mark_success, mark_error, appendHistory, old_history;
  cbn [id name trigger_type trigger_config mcp_server mcp_tool mcp_arguments
       agent_prompt enabled status created_at updated_at last_run last_status
       last_message next_run history set_status set_enabled set_next_run
       set_updated_at set_history set_last_run set_last_status
       set_last_message mark_running mark_success mark_error old_history].

Section RunProperties.

Context `{Host} `{Env}.

Lemma limit_history_firstn (h : list TaskHistoryEntry) :
  limit_history h = firstn HISTORY_LIMIT h.
Proof.
  unfold limit_history.
  destruct (Nat.ltb_spec HISTORY_LIMIT (length h)); [reflexivity|].
  symmetry. apply firstn_all2. assumption.
Qed.

Lemma history_appendHistory (task : TaskRecord) (entry : TaskHistoryEntry) :
  history (appendHistory task entry)
  = Some (firstn HISTORY_LIMIT (entry :: old_history task)).
Proof.
  unfold appendHistory, old_history. simpl history.
  rewrite limit_history_firstn. reflexivity.
Qed.

Lemma existing_after_valid (task : TaskRecord) (fromDate : Z) (e : Date) :
  existing_after task fromDate = Some e -> exists t, e = Some t.
Proof.
  unfold existing_after.
  destruct (truthy_opt_string (next_run task)); [|discriminate].
  destruct (Date_of_opt_string (next_run task)) as [t|]; simpl;
    [|discriminate].
  destruct (fromDate <? t); [|discriminate].
  intros E. injection E as <-. exists t. reflexivity.
Qed.

(** [computeNextRun] returns, unless it is asked about a pending date
    task whose [run_date] names no instant, or about a pending interval
    task whose next run is out of the range of dates. *)
Lemma computeNextRun_ok (task : TaskRecord) (fromDate : Z) :
  (enabled task = true -> status task <> completed ->
   run_date_valid task /\ next_run_in_range task fromDate) ->
  exists next, computeNextRun task fromDate = Ok next.
Proof.
  intros V.
  destruct (computeNextRun task fromDate) as [next|e] eqn:C;
    [exists next; reflexivity|].
  apply computeNextRun_throws in C. destruct C as (_ & E & S & C).
  destruct (V E S) as [D R]. unfold run_date_valid, next_run_in_range in *.
  destruct (trigger_type task).
  - elim C. apply R. reflexivity.
  - destruct C.
  - destruct (D eq_refl) as [t X]. congruence.
Qed.

(** [computeNextRun] reads five fields of the task and no other. *)
Lemma computeNextRun_ext (a b : TaskRecord) (fromDate : Z) :
  enabled a = enabled b -> status a = status b ->
  trigger_type a = trigger_type b -> trigger_config a = trigger_config b ->
  next_run a = next_run b ->
  computeNextRun a fromDate = computeNextRun b fromDate.
Proof.
  intros E S T C N. unfold computeNextRun, existing_after.
  rewrite E, S, T, C, N. reflexivity.
Qed.

(** The action of a run reads the state and does not change it. *)
Lemma run_action_world (self : TaskScheduler) (task : TaskRecord) (w : World) :
  snd (run_action self task w) = w.
Proof.
  unfold run_action.
  destruct (truthy_opt_string (agent_prompt task)).
  - destruct (mcpServer self) as [server|]; [|reflexivity].
    unfold bind. destruct (server _ _); reflexivity.
  - destruct (truthy_opt_string (mcp_server task)
              && truthy_opt_string (mcp_tool task)); reflexivity.
Qed.

(** [runTask] up to its action, its [catch] block and the end of its
    [try] block, spelled out *)
Lemma runTask_eq (self : TaskScheduler) (task : TaskRecord) (w : World) :
  runTask self task w
  = let startIso := Date_iso (clock (clock_reads w)) in
    let running := mark_running task startIso in
    match run_action self running (running_world task w) with
    | (Ok answer, w1) =>
        try_catch
          (finish_success (mark_success running startIso answer)
                          (clock (clock_reads w)) answer)
          (run_failed self (mark_success running startIso answer) startIso)
          w1
    | (Throw e, w1) => run_failed self running startIso e w1
    end.
Proof. reflexivity. Qed.

Lemma run_failed_eq (self : TaskScheduler) (task : TaskRecord)
    (startIso : string) (e : JsError) (w : World) :
  run_failed self task startIso e w
  = let text := errorMessage_of self e in
    match computeNextRun (mark_error task text) (clock (clock_reads w)) with
    | Ok next =>
        let final :=
          set_updated_at
            (appendHistory
               (set_next_run (mark_error task text) next)
               {| run_at := startIso; entry_status := run_error;
                  message := Some text |})
            (Date_iso (clock (S (clock_reads w)))) in
        (Ok ({| success := false; result_message := text |}, final),
         {| storage := upsert (storage w) final;
            clock_reads := S (S (clock_reads w)) |})
    | Throw e' =>
        (Throw e', {| storage := storage w; clock_reads := S (clock_reads w) |})
    end.
Proof.
  unfold run_failed, bind, ret, lift, new_Date, storage_upsert.
  cbn [storage clock_reads].
  destruct (computeNextRun _ _); reflexivity.
Qed.

Lemma finish_success_eq (task : TaskRecord) (start : Z) (message : string)
    (w : World) :
  finish_success task start message w
  = match
      match trigger_type task with
      | date => Ok (set_next_run (set_enabled task false) None)
      | _ =>
          res_bind (computeNextRun task start)
                   (fun next => Ok (set_next_run task next))
      end
    with
    | Ok task' =>
        let final :=
          set_updated_at task' (Date_iso (clock (clock_reads w))) in
        (Ok ({| success := true; result_message := message |}, final),
         {| storage := upsert (storage w) final;
            clock_reads := S (clock_reads w) |})
    | Throw e => (Throw e, w)
    end.
Proof.
  unfold finish_success, bind, ret, lift, new_Date, storage_upsert.
  destruct (trigger_type task); try destruct (computeNextRun task start);
    reflexivity.
Qed.

Lemma firstn_limit_cons (entry : TaskHistoryEntry)
    (h : list TaskHistoryEntry) :
  firstn HISTORY_LIMIT (entry :: firstn HISTORY_LIMIT h)
  = firstn HISTORY_LIMIT (entry :: h).
Proof.
  unfold HISTORY_LIMIT.
  change (entry :: firstn 9 (firstn 10 h) = entry :: firstn 9 h).
  f_equal. rewrite firstn_firstn. reflexivity.
Qed.

(** The state in which the action is taken, and the action in it *)
Lemma run_action_running (self : TaskScheduler) (task : TaskRecord)
    (w : World) :
  run_action self (mark_running task (Date_iso (clock (clock_reads w))))
    (running_world task w)
  = (fst (run_action self
            (mark_running task (Date_iso (clock (clock_reads w))))
            (running_world task w)),
     running_world task w).
Proof.
  pose proof (run_action_world self
                (mark_running task (Date_iso (clock (clock_reads w))))
                (running_world task w)) as W.
  destruct (run_action self _ (running_world task w)) as [r w1].
  cbn [fst snd] in *. subst w1. reflexivity.
Qed.

(** The [catch] block when the next run can be computed: what it returns
    and what it leaves. *)
Lemma run_failed_returns (self : TaskScheduler) (current : TaskRecord)
    (startIso : string) (e : JsError) (w : World) (next : option string) :
  let text := errorMessage_of self e in
  computeNextRun (set_status current error) (clock (clock_reads w))
  = Ok next ->
  exists final,
    run_failed self current startIso e w
    = (Ok ({| success := false; result_message := text |}, final),
       {| storage := upsert (storage w) final;
          clock_reads := S (S (clock_reads w)) |})
    /\ id final = id current
    /\ last_status final = Some last_error
    /\ last_message final = Some text
    /\ status final = error
    /\ enabled final = enabled current
    /\ history final
       = Some (firstn HISTORY_LIMIT
                 ({| run_at := startIso; entry_status := run_error;
                     message := Some text |} :: old_history current))
    /\ next_run final = next.
Proof.
  intros text N. rewrite run_failed_eq. cbv zeta. fold text.
  assert (N' : computeNextRun (mark_error current text)
                 (clock (clock_reads w)) = Ok next).
  { rewrite <- N. apply computeNextRun_ext; reflexivity. }
  rewrite N'. eexists. split; [reflexivity|].
  task_fields. rewrite limit_history_firstn.
  repeat split; reflexivity.
Qed.

(** The [catch] block throws what [computeNextRun] throws in it. *)
Lemma run_failed_throws (self : TaskScheduler) (current : TaskRecord)
    (startIso : string) (e thrown : JsError) (w : World) :
  computeNextRun (set_status current error) (clock (clock_reads w))
  = Throw thrown ->
  run_failed self current startIso e w
  = (Throw thrown,
     {| storage := storage w; clock_reads := S (clock_reads w) |}).
Proof.
  intros N. rewrite run_failed_eq. cbv zeta.
  assert (N' : computeNextRun (mark_error current (errorMessage_of self e))
                 (clock (clock_reads w)) = Throw thrown).
  { rewrite <- N. apply computeNextRun_ext; reflexivity. }
  rewrite N'. reflexivity.
Qed.

(** A run whose action succeeds, when the next run can be computed from
    the start of the run: what it returns and what it leaves. *)
Lemma runTask_success (self : TaskScheduler) (task : TaskRecord) (w : World)
    (answer : string) :
  let startIso := Date_iso (clock (clock_reads w)) in
  let running := mark_running task startIso in
  fst (run_action self running (running_world task w)) = Ok answer ->
  (trigger_type task <> date ->
   exists next,
     computeNextRun (set_status task scheduled) (clock (clock_reads w))
     = Ok next) ->
  exists final,
    runTask self task w
    = (Ok ({| success := true; result_message := answer |}, final),
       {| storage := upsert (storage (running_world task w)) final;
          clock_reads := S (S (clock_reads w)) |})
    /\ id final = id task
    /\ last_status final = Some last_success
    /\ last_message final = Some answer
    /\ history final
       = Some (firstn HISTORY_LIMIT
                 ({| run_at := startIso; entry_status := run_success;
                     message := Some answer |} :: old_history task))
    /\ match trigger_type task with
       | date =>
           status final = completed /\ enabled final = false
           /\ next_run final = None
       | _ =>
           status final = scheduled /\ enabled final = enabled task
           /\ computeNextRun (set_status task scheduled)
                             (clock (clock_reads w))
              = Ok (next_run final)
       end.
Proof.
  intros startIso running A Nx.
  rewrite runTask_eq. cbv zeta. rewrite run_action_running.
  unfold running, startIso in A. rewrite A. fold startIso. fold running.
  unfold try_catch. rewrite finish_success_eq.
  change (trigger_type (mark_success running startIso answer))
    with (trigger_type task).
  assert (X : trigger_type task <> date ->
              exists next,
                computeNextRun (mark_success running startIso answer)
                  (clock (clock_reads w)) = Ok next
                /\ computeNextRun (set_status task scheduled)
                     (clock (clock_reads w)) = Ok next).
  { intros T. destruct (Nx T) as [next N]. exists next.
    split; [|exact N]. rewrite <- N.
    apply computeNextRun_ext; subst running; task_fields;
      try reflexivity.
    destruct (trigger_type task); [reflexivity | reflexivity | congruence]. }
  destruct (trigger_type task) eqn:K.
  - destruct X as (next & N & N0); [discriminate|].
    rewrite N. cbn [res_bind]. cbv zeta.
    eexists. split; [reflexivity|].
    subst running. task_fields. rewrite limit_history_firstn, K.
    repeat split; try reflexivity. exact N0.
  - destruct X as (next & N & N0); [discriminate|].
    rewrite N. cbn [res_bind]. cbv zeta.
    eexists. split; [reflexivity|].
    subst running. task_fields. rewrite limit_history_firstn, K.
    repeat split; try reflexivity. exact N0.
  - cbv zeta. eexists. split; [reflexivity|].
    subst running. task_fields. rewrite limit_history_firstn, K.
    repeat split; reflexivity.
Qed.

(** A run whose action succeeds, when the next run cannot be computed
    from the start of the run: the [catch] block takes over, with the
    success entry already in the history. *)
Lemma runTask_success_caught (self : TaskScheduler) (task : TaskRecord)
    (w : World) (answer : string) (thrown : JsError) :
  let startIso := Date_iso (clock (clock_reads w)) in
  let running := mark_running task startIso in
  fst (run_action self running (running_world task w)) = Ok answer ->
  trigger_type task <> date ->
  computeNextRun (set_status task scheduled) (clock (clock_reads w))
  = Throw thrown ->
  runTask self task w
  = run_failed self (mark_success running startIso answer) startIso thrown
      (running_world task w).
Proof.
  intros startIso running A T N.
  rewrite runTask_eq. cbv zeta. rewrite run_action_running.
  unfold running, startIso in A. rewrite A. fold startIso. fold running.
  unfold try_catch. rewrite finish_success_eq.
  change (trigger_type (mark_success running startIso answer))
    with (trigger_type task).
  assert (N' : computeNextRun (mark_success running startIso answer)
                 (clock (clock_reads w)) = Throw thrown).
  { rewrite <- N.
    apply computeNextRun_ext; subst running; task_fields;
      try reflexivity.
    destruct (trigger_type task); [reflexivity | reflexivity | congruence]. }
  destruct (trigger_type task); [| |congruence];
    rewrite N'; reflexivity.
Qed.

(** A run whose action throws goes on in the [catch] block. *)
Lemma runTask_failure_caught (self : TaskScheduler) (task : TaskRecord)
    (w : World) (e : JsError) :
  let startIso := Date_iso (clock (clock_reads w)) in
  let running := mark_running task startIso in
  fst (run_action self running (running_world task w)) = Throw e ->
  runTask self task w
  = run_failed self running startIso e (running_world task w).
Proof.
  intros startIso running A.
  rewrite runTask_eq. cbv zeta. rewrite run_action_running.
  unfold running, startIso in A. rewrite A. fold startIso. fold running.
  reflexivity.
Qed.

(** A run whose action throws, when the next run can be computed from
    the instant of the failure: what it returns and what it leaves. *)
Lemma runTask_failure (self : TaskScheduler) (task : TaskRecord) (w : World)
    (e : JsError) (next : option string) :
  let startIso := Date_iso (clock (clock_reads w)) in
  let running := mark_running task startIso in
  let text := errorMessage_of self e in
  fst (run_action self running (running_world task w)) = Throw e ->
  computeNextRun (set_status task error) (clock (S (clock_reads w)))
  = Ok next ->
  exists final,
    runTask self task w
    = (Ok ({| success := false; result_message := text |}, final),
       {| storage := upsert (storage (running_world task w)) final;
          clock_reads := S (S (S (clock_reads w))) |})
    /\ id final = id task
    /\ last_status final = Some last_error
    /\ last_message final = Some text
    /\ status final = error
    /\ enabled final = enabled task
    /\ history final
       = Some (firstn HISTORY_LIMIT
                 ({| run_at := startIso; entry_status := run_error;
                     message := Some text |} :: old_history task))
    /\ next_run final = next.
Proof.
  intros startIso running text A N.
  rewrite (runTask_failure_caught self task w e A).
  fold startIso. fold running.
  destruct (run_failed_returns self running startIso e (running_world task w)
              next) as (final & E & P).
  { rewrite <- N. apply computeNextRun_ext; reflexivity. }
  exists final. split; [exact E|]. exact P.
Qed.

(** A run whose action throws throws itself when the next run cannot be
    computed from the instant of the failure. *)
Lemma runTask_failure_throws (self : TaskScheduler) (task : TaskRecord)
    (w : World) (e thrown : JsError) :
  fst (run_action self (mark_running task (Date_iso (clock (clock_reads w))))
         (running_world task w))
  = Throw e ->
  computeNextRun (set_status task error) (clock (S (clock_reads w)))
  = Throw thrown ->
  runTask self task w
  = (Throw thrown,
     {| storage := storage (running_world task w);
        clock_reads := S (S (clock_reads w)) |}).
Proof.
  intros A N. rewrite (runTask_failure_caught self task w e A).
  apply run_failed_throws. rewrite <- N.
  apply computeNextRun_ext; reflexivity.
Qed.

(** What [computeNextRun] throws for a task that is not a date task *)
Lemma computeNextRun_out_of_range (task : TaskRecord) (st : TaskStatus)
    (fromDate : Z) (e : JsError) :
  trigger_type task <> date ->
  computeNextRun (set_status task st) fromDate = Throw e ->
  e = RangeError_invalid_time /\ ~ next_run_in_range task fromDate.
Proof.
  intros T N. apply computeNextRun_throws in N.
  destruct N as (-> & _ & _ & N). split; [reflexivity|].
  change (trigger_type (set_status task st)) with (trigger_type task) in N.
  change (trigger_config (set_status task st)) with (trigger_config task)
    in N.
  unfold next_run_in_range. intros R.
  destruct (trigger_type task); [exact (N (R eq_refl)) | exact N | congruence].
Qed.

(** Every run that returns: the result tells what the action did, and the
    history is the entry of the result on top of the old one, cut to the
    limit.  One kind of run writes two entries: the action succeeds, the
    next run of the interval cannot be printed from the start of the run,
    and the [catch] block, which reads the clock anew, can print it; the
    success entry is then below the error entry. *)
Lemma runTask_returns (self : TaskScheduler) (task : TaskRecord) (w w' : World)
    (r : RunResult) (final : TaskRecord) :
  runTask self task w = (Ok (r, final), w') ->
  let startIso := Date_iso (clock (clock_reads w)) in
  let running := mark_running task startIso in
  id final = id task
  /\ storage w' = upsert (storage (running_world task w)) final
  /\ match fst (run_action self running (running_world task w)) with
     | Ok answer =>
         let succeeded :=
           {| run_at := startIso; entry_status := run_success;
              message := Some answer |} in
         (r = {| success := true; result_message := answer |}
          /\ history final
             = Some (firstn HISTORY_LIMIT (succeeded :: old_history task)))
         \/ (r = {| success := false;
                    result_message
                    := errorMessage_of self RangeError_invalid_time |}
             /\ ~ next_run_in_range task (clock (clock_reads w))
             /\ history final
                = Some (firstn HISTORY_LIMIT
                          ({| run_at := startIso; entry_status := run_error;
                              message
                              := Some (errorMessage_of self
                                         RangeError_invalid_time) |}
                           :: succeeded :: old_history task)))
     | Throw e =>
         r = {| success := false; result_message := errorMessage_of self e |}
         /\ history final
            = Some (firstn HISTORY_LIMIT
                      ({| run_at := startIso; entry_status := run_error;
                          message := Some (errorMessage_of self e) |}
                       :: old_history task))
     end.
Proof.
  intros E startIso running.
  destruct (fst (run_action self running (running_world task w)))
    as [answer|e] eqn:A.
  - assert (S : forall final',
              runTask self task w
              = (Ok ({| success := true; result_message := answer |}, final'),
                 {| storage := upsert (storage (running_world task w)) final';
                    clock_reads := S (S (clock_reads w)) |}) ->
              r = {| success := true; result_message := answer |}
              /\ final' = final
              /\ storage w' = upsert (storage (running_world task w)) final').
    { intros final' E'. rewrite E in E'. injection E' as -> -> ->.
      repeat split. }
    assert (D : trigger_type task = date \/ trigger_type task <> date)
      by (destruct (trigger_type task);
          [right; discriminate | right; discriminate | left; reflexivity]).
    destruct D as [T|T].
    + destruct (runTask_success self task w answer A)
        as (final' & E' & I & _ & _ & Hh & _); [congruence|].
      destruct (S final' E') as (-> & -> & St).
      split; [exact I|]. split; [exact St|]. left.
      split; [reflexivity | exact Hh].
    + destruct (computeNextRun (set_status task scheduled)
                  (clock (clock_reads w))) as [next|thrown] eqn:N.
      * destruct (runTask_success self task w answer A)
          as (final' & E' & I & _ & _ & Hh & _);
          [intros _; exists next; exact N|].
        destruct (S final' E') as (-> & -> & St).
        split; [exact I|]. split; [exact St|]. left.
        split; [reflexivity | exact Hh].
      * rewrite (runTask_success_caught self task w answer thrown A T N) in E.
        destruct (computeNextRun_out_of_range task scheduled _ thrown T N)
          as [-> R].
        destruct (computeNextRun
                    (set_status (mark_success running startIso answer) error)
                    (clock (clock_reads (running_world task w))))
          as [next|thrown] eqn:N2.
        -- destruct (run_failed_returns self
                       (mark_success running startIso answer) startIso
                       RangeError_invalid_time (running_world task w) next N2)
             as (final' & E' & I & _ & _ & _ & _ & Hh & _).
           fold startIso in E. fold running in E.
           rewrite E in E'. injection E' as -> -> ->.
           split; [exact I|]. split; [reflexivity|]. right.
           split; [reflexivity|]. split; [exact R|].
           rewrite Hh. subst running. task_fields.
           rewrite limit_history_firstn, firstn_limit_cons. reflexivity.
        -- fold startIso in E. fold running in E.
           rewrite (run_failed_throws self _ startIso _ thrown _ N2) in E.
           discriminate E.
  - rewrite (runTask_failure_caught self task w e A) in E.
    fold startIso in E. fold running in E.
    destruct (computeNextRun (set_status running error)
                (clock (clock_reads (running_world task w))))
      as [next|thrown] eqn:N2.
    + destruct (run_failed_returns self running startIso e
                  (running_world task w) next N2)
        as (final' & E' & I & _ & _ & _ & _ & Hh & _).
      rewrite E in E'. injection E' as -> -> ->.
      split; [exact I|]. split; [reflexivity|].
      split; [reflexivity | exact Hh].
    + rewrite (run_failed_throws self _ startIso _ thrown _ N2) in E.
      discriminate E.
Qed.

(** A run throws only what its [catch] block throws: the RangeError of a
    next run that cannot be printed, for an enabled interval task whose
    next run, counted from the second reading of the clock, is out of the
    range of dates, or for an enabled date task whose [run_date] names no
    instant. *)
Lemma runTask_throws (self : TaskScheduler) (task : TaskRecord) (w w' : World)
    (e : JsError) :
  runTask self task w = (Throw e, w') ->
  computeNextRun (set_status task error) (clock (S (clock_reads w)))
  = Throw e
  /\ e = RangeError_invalid_time
  /\ enabled task = true
  /\ match trigger_type task with
     | interval =>
         ~ time_value
             (Number_add (inject_Z (clock (S (clock_reads w))))
                (computeIntervalMs (config_interval (trigger_config task))))
     | cron => False
     | date =>
         Date_of_opt_string (config_run_date (trigger_config task)) = None
     end.
Proof.
  intros E.
  assert (X : computeNextRun (set_status task error)
                (clock (S (clock_reads w))) = Throw e).
  { destruct (computeNextRun (set_status task error)
                (clock (S (clock_reads w)))) as [next|thrown] eqn:N2.
    - destruct (fst (run_action self
                       (mark_running task (Date_iso (clock (clock_reads w))))
                       (running_world task w))) as [answer|e0] eqn:A.
      + assert (D : trigger_type task = date \/ trigger_type task <> date)
          by (destruct (trigger_type task);
              [right; discriminate | right; discriminate | left; reflexivity]).
        destruct D as [T|T].
        * destruct (runTask_success self task w answer A)
            as (final' & E' & _); [congruence|].
          rewrite E in E'. discriminate E'.
        * destruct (computeNextRun (set_status task scheduled)
                      (clock (clock_reads w))) as [next1|thrown] eqn:N.
          -- destruct (runTask_success self task w answer A)
               as (final' & E' & _); [intros _; exists next1; exact N|].
             rewrite E in E'. discriminate E'.
          -- rewrite (runTask_success_caught self task w answer thrown A T N)
               in E.
             destruct (run_failed_returns self
                         (mark_success
                            (mark_running task
                               (Date_iso (clock (clock_reads w))))
                            (Date_iso (clock (clock_reads w))) answer)
                         (Date_iso (clock (clock_reads w)))
                         thrown (running_world task w) next)
               as (final' & E' & _).
             { rewrite <- N2. apply computeNextRun_ext; reflexivity. }
             rewrite E in E'. discriminate E'.
      + destruct (runTask_failure self task w e0 next A N2)
          as (final' & E' & _).
        rewrite E in E'. discriminate E'.
    - destruct (fst (run_action self
                       (mark_running task (Date_iso (clock (clock_reads w))))
                       (running_world task w))) as [answer|e0] eqn:A.
      + assert (D : trigger_type task = date \/ trigger_type task <> date)
          by (destruct (trigger_type task);
              [right; discriminate | right; discriminate | left; reflexivity]).
        destruct D as [T|T].
        * destruct (runTask_success self task w answer A)
            as (final' & E' & _); [congruence|].
          rewrite E in E'. discriminate E'.
        * destruct (computeNextRun (set_status task scheduled)
                      (clock (clock_reads w))) as [next1|thrown1] eqn:N.
          -- destruct (runTask_success self task w answer A)
               as (final' & E' & _); [intros _; exists next1; exact N|].
             rewrite E in E'. discriminate E'.
          -- rewrite (runTask_success_caught self task w answer thrown1 A T N)
               in E.
             rewrite (run_failed_throws self _ _ _ thrown) in E.
             ++ injection E as -> _. reflexivity.
             ++ rewrite <- N2. apply computeNextRun_ext; reflexivity.
      + rewrite (runTask_failure_throws self task w e0 thrown A N2) in E.
        injection E as -> _. reflexivity. }
  split; [exact X|].
  apply computeNextRun_throws in X. destruct X as (Ee & En & _ & Tt).
  split; [exact Ee|]. split; [exact En | exact Tt].
Qed.

(** A run returns for a task whose [run_date] names an instant and whose
    next run can be printed from the second reading of the clock. *)
Lemma runTask_total (self : TaskScheduler) (task : TaskRecord) (w : World) :
  run_date_valid task ->
  next_run_in_range task (clock (S (clock_reads w))) ->
  exists r final w', runTask self task w = (Ok (r, final), w').
Proof.
  intros V Rg.
  destruct (runTask self task w) as [[[r final]|e] w'] eqn:E.
  - exists r, final, w'. reflexivity.
  - apply runTask_throws in E. destruct E as (_ & _ & _ & E).
    unfold run_date_valid, next_run_in_range in *.
    destruct (trigger_type task).
    + elim E. apply Rg. reflexivity.
    + destruct E.
    + destruct (V eq_refl) as [t D]. congruence.
Qed.

(** The next run of a task that is not a pending date task without an
    instant can be computed wherever it is in range. *)
Lemma computeNextRun_in_range (task : TaskRecord) (st : TaskStatus)
    (fromDate : Z) :
  run_date_valid task -> next_run_in_range task fromDate ->
  exists next, computeNextRun (set_status task st) fromDate = Ok next.
Proof.
  intros V R. apply computeNextRun_ok. intros _ _. split; assumption.
Qed.

(** The result of a run tells which way it went. *)
Lemma runTask_result (self : TaskScheduler) (task : TaskRecord) (w w' : World)
    (r : RunResult) (final : TaskRecord) :
  runTask self task w = (Ok (r, final), w') ->
  next_run_in_range task (clock (clock_reads w)) ->
  if success r
  then fst (run_action self
              (mark_running task (Date_iso (clock (clock_reads w))))
              (running_world task w))
       = Ok (result_message r)
  else exists e,
         fst (run_action self
                (mark_running task (Date_iso (clock (clock_reads w))))
                (running_world task w))
         = Throw e
         /\ result_message r = errorMessage_of self e.
Proof.
  intros E Rg.
  destruct (runTask_returns self task w w' r final E) as (_ & _ & C).
  cbv zeta in C.
  destruct (fst (run_action self
                   (mark_running task (Date_iso (clock (clock_reads w))))
                   (running_world task w))) as [answer|e].
  - destruct C as [[-> _]|(_ & R & _)]; [reflexivity | contradiction].
  - destruct C as [-> _]. exists e. split; reflexivity.
Qed.

End RunProperties.

(** ** The scheduler: normalisation and the reads that write *)

Section ReadProperties.

Context `{Host} `{Env}.

Lemma find_insert_or_update (row : TaskRow) (rows : list TaskRow) :
  find (fun r => String.eqb (row_id r) (row_id row))
       (insert_or_update row rows)
  = Some row.
Proof.
  unfold insert_or_update.
  destruct (existsb _ rows) eqn:E.
  - induction rows as [|r rows IH]; simpl in *; [discriminate|].
    destruct (String.eqb (row_id r) (row_id row)) eqn:R; simpl.
    + rewrite String.eqb_refl. reflexivity.
    + rewrite R. apply IH, E.
  - induction rows as [|r rows IH]; simpl in *.
    + rewrite String.eqb_refl. reflexivity.
    + apply orb_false_iff in E. destruct E as [R E].
      rewrite R. apply IH, E.
Qed.


Lemma tasks_upsert (db : Store) (task : TaskRecord) :
  tasks (upsert db task) = insert_or_update (row_of_task task) (tasks db).
Proof.
  unfold upsert. destruct (history task); [|reflexivity].
  rewrite insert_history_fresh. reflexivity.
Qed.

(** After [upsert] the row of the task holds the fields of the task. *)
Lemma find_row_upsert (db : Store) (task : TaskRecord) :
  find_row (upsert db task) (id task) = Some (row_of_task task).
Proof.
  unfold find_row. rewrite tasks_upsert.
  apply (find_insert_or_update (row_of_task task)).
Qed.


(** What [get] returns is the row, read back, with the history of the
    task. *)
Lemma get_some (db : Store) (taskId : string) (task : TaskRecord) :
  get db taskId = Some task ->
  exists row entries,
    find_row db taskId = Some row
    /\ task = mapRowToTask row entries
    /\ id task = taskId.
Proof.
  unfold get. destruct (find_row db taskId) as [row|] eqn:F; [|discriminate].
  intros E. injection E as <-. eexists. eexists.
  split; [reflexivity|]. split; [reflexivity|].
  exact (find_row_id db taskId row F).
Qed.

Lemma newest_is_success_truncated (task : TaskRecord) :
  newest_is_success (truncated task) = newest_is_success task.
Proof.
  unfold truncated, newest_is_success.
  destruct (history task) as [h|] eqn:E; [|rewrite E; reflexivity].
  destruct (HISTORY_LIMIT <? length h)%nat; [|rewrite E; reflexivity].
  cbn [history set_history]. destruct h as [|e h]; reflexivity.
Qed.

Lemma truncated_fields (task : TaskRecord) :
  id (truncated task) = id task
  /\ enabled (truncated task) = enabled task
  /\ status (truncated task) = status task
  /\ trigger_type (truncated task) = trigger_type task
  /\ trigger_config (truncated task) = trigger_config task
  /\ last_status (truncated task) = last_status task
  /\ next_run (truncated task) = next_run task
  /\ created_at (truncated task) = created_at task
  /\ updated_at (truncated task) = updated_at task
  /\ history (truncated task)
     = option_map (firstn HISTORY_LIMIT) (history task).
Proof.
  unfold truncated. destruct (history task) as [h|] eqn:E.
  - destruct (Nat.ltb_spec HISTORY_LIMIT (length h)).
    + repeat split; reflexivity.
    + rewrite E. cbn [option_map]. rewrite firstn_all2 by assumption.
      repeat split; reflexivity.
  - rewrite E. repeat split; reflexivity.
Qed.

Lemma determineStatus_truncated (task : TaskRecord) (now : Z) :
  determineStatus (truncated task) now = determineStatus task now.
Proof.
  destruct (truncated_fields task) as (_ & E & S & T & C & L & _).
  unfold determineStatus.
  rewrite E, S, T, C, L, newest_is_success_truncated. reflexivity.
Qed.

(** [normaliseTask], spelled out *)
Lemma normaliseTask_eq (task : TaskRecord) (w : World) :
  normaliseTask task w
  = let now := clock (clock_reads w) in
    let task1 := truncated task in
    let task2 := set_status task1 (determineStatus task1 now) in
    let task3 :=
      match trigger_type task2 with
      | date =>
          if TaskStatus_eqb (status task2) completed
          then set_enabled task2 false
          else task2
      | _ => task2
      end in
    match computeNextRun task3 now with
    | Ok next =>
        if truthy_string (updated_at task)
        then (Ok (set_updated_at (set_next_run task3 next) (updated_at task)),
              {| storage := storage w; clock_reads := S (clock_reads w) |})
        else (Ok (set_updated_at (set_next_run task3 next)
                    (Date_iso (clock (S (clock_reads w))))),
              {| storage := storage w; clock_reads := S (S (clock_reads w)) |})
    | Throw e =>
        (Throw e, {| storage := storage w; clock_reads := S (clock_reads w) |})
    end.
Proof.
  unfold normaliseTask, bind, ret, lift, new_Date. cbv zeta.
  fold (truncated task).
  destruct (computeNextRun _ _) as [next|e]; [|reflexivity].
  assert (U : updated_at
                (set_next_run
                   match trigger_type
                           (set_status (truncated task)
                              (determineStatus (truncated task)
                                 (clock (clock_reads w)))) with
                   | date =>
                       if TaskStatus_eqb
                            (status
                               (set_status (truncated task)
                                  (determineStatus (truncated task)
                                     (clock (clock_reads w)))))
                            completed
                       then set_enabled
                              (set_status (truncated task)
                                 (determineStatus (truncated task)
                                    (clock (clock_reads w))))
                              false
                       else set_status (truncated task)
                              (determineStatus (truncated task)
                                 (clock (clock_reads w)))
                   | _ => set_status (truncated task)
                            (determineStatus (truncated task)
                               (clock (clock_reads w)))
                   end next)
              = updated_at task).
  { destruct (truncated_fields task) as (_ & _ & _ & T & _ & _ & _ & _ & U & _).
    cbn [trigger_type set_status status].
    destruct (trigger_type (truncated task));
      try destruct (TaskStatus_eqb _ completed); exact U. }
  rewrite U. destruct (truthy_string (updated_at task)); reflexivity.
Qed.

Lemma pair_Ok_inv {A : Type} (a b : A) (w1 w2 : World) :
  (Ok a, w1) = (Ok b, w2) -> a = b /\ w1 = w2.
Proof. intros E. injection E as -> ->. split; reflexivity. Qed.

(** What normalisation returns, when it returns. *)
Lemma normaliseTask_ok (task final : TaskRecord) (w w' : World) :
  normaliseTask task w = (Ok final, w') ->
  let now := clock (clock_reads w) in
  storage w' = storage w
  /\ id final = id task
  /\ created_at final = created_at task
  /\ trigger_type final = trigger_type task
  /\ history final = option_map (firstn HISTORY_LIMIT) (history task)
  /\ status final = determineStatus task now
  /\ enabled final = normalised_enabled task now
  /\ computeNextRun
       (set_enabled (set_status task (determineStatus task now))
                    (normalised_enabled task now))
       now
     = Ok (next_run final)
  /\ (truthy_string (updated_at task) = true ->
      updated_at final = updated_at task).
Proof.
  intros E now. rewrite normaliseTask_eq in E. cbv zeta in E. fold now in E.
  rewrite determineStatus_truncated in E.
  destruct (truncated_fields task)
    as (Fi & Fe & Fs & Ft & Fc & Fl & Fn & Fa & Fu & Fh).
  set (task2 := set_status (truncated task) (determineStatus task now)) in *.
  set (task3 := match trigger_type task2 with
                | date =>
                    if TaskStatus_eqb (status task2) completed
                    then set_enabled task2 false
                    else task2
                | _ => task2
                end) in *.
  assert (P : id task3 = id task
              /\ created_at task3 = created_at task
              /\ trigger_type task3 = trigger_type task
              /\ trigger_config task3 = trigger_config task
              /\ history task3
                 = option_map (firstn HISTORY_LIMIT) (history task)
              /\ status task3 = determineStatus task now
              /\ enabled task3 = normalised_enabled task now
              /\ next_run task3 = next_run task).
  { unfold task3, task2, normalised_enabled.
    cbn [trigger_type status set_status]. rewrite Ft.
    destruct (trigger_type task);
      try destruct (TaskStatus_eqb (determineStatus task now) completed);
      cbn [id created_at trigger_type trigger_config history status enabled
           next_run set_status set_enabled];
      repeat split; assumption. }
  destruct P as (Pi & Pa & Pt & Pc & Ph & Ps & Pe & Pn).
  destruct (computeNextRun task3 now) as [next|e] eqn:N; [|discriminate].
  assert (N' : computeNextRun
                 (set_enabled (set_status task (determineStatus task now))
                              (normalised_enabled task now)) now
               = Ok next).
  { rewrite <- N. apply computeNextRun_ext;
      cbn [enabled status trigger_type trigger_config next_run set_status
           set_enabled]; congruence. }
  destruct (truthy_string (updated_at task)) eqn:U;
    apply pair_Ok_inv in E; destruct E as [<- <-];
    cbn [storage id created_at trigger_type history status enabled next_run
         updated_at set_updated_at set_next_run];
    repeat split; try assumption; try reflexivity; discriminate.
Qed.

(** Normalisation returns for every well-formed task. *)
Lemma normaliseTask_total (task : TaskRecord) (w : World) :
  run_date_valid task ->
  next_run_in_range task (clock (clock_reads w)) ->
  exists final w', normaliseTask task w = (Ok final, w').
Proof.
  intros V Rg. rewrite normaliseTask_eq. cbv zeta.
  destruct (truncated_fields task)
    as (Fi & Fe & Fs & Ft & Fc & Fl & Fn & Fa & Fu & Fh).
  match goal with
  | |- context [computeNextRun ?t ?n] =>
      destruct (computeNextRun_ok t n) as [next N]
  end.
  { intros _ _. unfold run_date_valid, next_run_in_range in *.
    cbn [trigger_type status set_status].
    destruct (trigger_type (truncated task)) eqn:T;
      try destruct (TaskStatus_eqb _ completed);
      cbn [trigger_type trigger_config set_status set_enabled];
      rewrite ?T, Fc;
      (split;
       [try discriminate; intros _; apply V; congruence
       |try discriminate; intros _; apply Rg; congruence]). }
  rewrite N. destruct (truthy_string (updated_at task));
    eexists; eexists; reflexivity.
Qed.













End ReadProperties.

(** ** Fires: history, date tasks, timeouts *)

Section FireProperties.

Context `{Host} `{Env}.

Lemma firstn_limit (entry : TaskHistoryEntry) (h : list TaskHistoryEntry) :
  hd_error (firstn HISTORY_LIMIT (entry :: h)) = Some entry
  /\ (length (firstn HISTORY_LIMIT (entry :: h)) <= HISTORY_LIMIT)%nat
  /\ exists dropped,
       entry :: h = (firstn HISTORY_LIMIT (entry :: h) ++ dropped)%list
       /\ length dropped = (S (length h) - HISTORY_LIMIT)%nat.
Proof.
  split; [reflexivity|]. split; [apply firstn_le_length|].
  exists (skipn HISTORY_LIMIT (entry :: h)). split.
  - symmetry. apply firstn_skipn.
  - rewrite length_skipn. reflexivity.
Qed.

(** Normalisation returns when the next run of the task, with the status
    and the flag that normalisation gives it, can be computed. *)
Lemma normaliseTask_returns (task : TaskRecord) (w : World)
    (next : option string) :
  let now := clock (clock_reads w) in
  computeNextRun
    (set_enabled (set_status task (determineStatus task now))
                 (normalised_enabled task now))
    now
  = Ok next ->
  exists final w', normaliseTask task w = (Ok final, w').
Proof.
  intros now N. rewrite normaliseTask_eq. cbv zeta. fold now.
  rewrite determineStatus_truncated.
  destruct (truncated_fields task)
    as (Fi & Fe & Fs & Ft & Fc & Fl & Fn & Fa & Fu & Fh).
  set (task2 := set_status (truncated task) (determineStatus task now)).
  set (task3 := match trigger_type task2 with
                | date =>
                    if TaskStatus_eqb (status task2) completed
                    then set_enabled task2 false
                    else task2
                | _ => task2
                end).
  assert (P : trigger_type task3 = trigger_type task
              /\ trigger_config task3 = trigger_config task
              /\ status task3 = determineStatus task now
              /\ enabled task3 = normalised_enabled task now
              /\ next_run task3 = next_run task).
  { unfold task3, task2, normalised_enabled.
    cbn [trigger_type status set_status]. rewrite Ft.
    destruct (trigger_type task);
      try destruct (TaskStatus_eqb (determineStatus task now) completed);
      cbn [trigger_type trigger_config status enabled next_run set_status
           set_enabled];
      repeat split; assumption. }
  destruct P as (Pt & Pc & Ps & Pe & Pn).
  assert (N' : computeNextRun task3 now = Ok next).
  { rewrite <- N. apply computeNextRun_ext;
      cbn [enabled status trigger_type trigger_config next_run set_status
           set_enabled]; congruence. }
  rewrite N'. destruct (truthy_string (updated_at task));
    eexists; eexists; reflexivity.
Qed.

(** C4.  [appendHistory] puts the new entry first and cuts the list to
    ten: only entries at the old end are dropped, and only past ten.
    Every fire that returns, whatever its outcome, leaves the entry of
    that outcome first in a history of at most ten entries, which are the
    history rows of the task; the history is what [appendHistory] makes
    of the old one and this entry, unless the action succeeded and the
    next run of the interval could not be printed from the start of the
    fire: then the success entry, written before, is second.  A fire
    returns for a task whose [run_date] names an instant and whose next
    run is in the range of dates; what it throws otherwise is the
    RangeError of that next run.  Normalisation, when it returns, has cut
    the history to its first ten entries; it returns under the same
    conditions. *)
Theorem history_is_bounded (self : TaskScheduler) (task : TaskRecord)
    (w : World) :
  let start := clock (clock_reads w) in
  let failure := clock (S (clock_reads w)) in
  (forall entry,
     let after := appendHistory task entry in
     history after = Some (firstn 10 (entry :: old_history task))
     /\ hd_error (old_history after) = Some entry
     /\ (length (old_history after) <= 10)%nat
     /\ exists dropped,
          entry :: old_history task = (old_history after ++ dropped)%list
          /\ length dropped
             = (S (length (old_history task)) - 10)%nat)
  /\ (forall r final w',
        runTask self task w = (Ok (r, final), w') ->
        let entry :=
          {| run_at := Date_iso start;
             entry_status := if success r then run_success else run_error;
             message := Some (result_message r) |} in
        hd_error (old_history final) = Some entry
        /\ (length (old_history final) <= 10)%nat
        /\ stored_history (storage w') (id task) = old_history final
        /\ (exists earlier dropped,
              (entry :: earlier ++ old_history task
               = old_history final ++ dropped)%list
              /\ length dropped
                 = (S (length earlier + length (old_history task))
                    - 10)%nat
              /\ (length earlier <= 1)%nat
              /\ (next_run_in_range task start -> earlier = []))
        /\ (next_run_in_range task start ->
            history final = history (appendHistory task entry)))
  /\ (run_date_valid task -> next_run_in_range task failure ->
      exists r final w', runTask self task w = (Ok (r, final), w'))
  /\ (forall e w',
        runTask self task w = (Throw e, w') ->
        e = RangeError_invalid_time
        /\ ~ (run_date_valid task /\ next_run_in_range task failure))
  /\ (forall final w',
        normaliseTask task w = (Ok final, w') ->
        history final = option_map (firstn 10) (history task)
        /\ (length (old_history final) <= 10)%nat)
  /\ (run_date_valid task -> next_run_in_range task start ->
      exists final w', normaliseTask task w = (Ok final, w')).
Proof.
  intros start failure.
  split; [|split; [|split; [|split; [|split]]]].
  - intros entry after. unfold after.
    rewrite history_appendHistory.
    split; [reflexivity|].
    assert (OH : old_history (appendHistory task entry)
                 = firstn HISTORY_LIMIT (entry :: old_history task))
      by (unfold old_history at 1; rewrite history_appendHistory;
          reflexivity).
    rewrite OH. apply firstn_limit.
  - intros r final w' E entry.
    destruct (runTask_returns self task w w' r final E) as (I & St & C).
    cbv zeta in C. fold start in C.
    assert (K : forall earlier,
              history final
              = Some (firstn HISTORY_LIMIT
                        (entry :: earlier ++ old_history task)) ->
              (length earlier <= 1)%nat ->
              (next_run_in_range task start -> earlier = []) ->
              hd_error (old_history final) = Some entry
              /\ (length (old_history final) <= HISTORY_LIMIT)%nat
              /\ stored_history (storage w') (id task) = old_history final
              /\ (exists earlier dropped,
                    (entry :: earlier ++ old_history task
                     = old_history final ++ dropped)%list
                    /\ length dropped
                       = (S (length earlier + length (old_history task))
                          - HISTORY_LIMIT)%nat
                    /\ (length earlier <= 1)%nat
                    /\ (next_run_in_range task start -> earlier = []))
              /\ (next_run_in_range task start ->
                  history final = history (appendHistory task entry))).
    { intros earlier Hh L1 L0.
      assert (OH : old_history final
                   = firstn HISTORY_LIMIT
                       (entry :: earlier ++ old_history task))
        by (unfold old_history at 1; rewrite Hh; reflexivity).
      destruct (firstn_limit entry (earlier ++ old_history task))
        as (F1 & F2 & dropped & F3 & F4).
      rewrite OH.
      split; [exact F1|]. split; [exact F2|]. split.
      - rewrite St, <- I. apply stored_history_upsert. exact Hh.
      - split.
        + exists earlier, dropped. rewrite length_app in F4.
          split; [exact F3|]. split; [exact F4|]. split; assumption.
        + intros R. rewrite history_appendHistory, Hh, (L0 R).
          reflexivity. }
    destruct (fst (run_action self
                     (mark_running task (Date_iso start))
                     (running_world task w))) as [answer|e].
    + destruct C as [[-> Hh]|(-> & R & Hh)].
      * apply (K []); [exact Hh | apply Nat.le_0_l | reflexivity].
      * apply (K [{| run_at := Date_iso start; entry_status := run_success;
                     message := Some answer |}]);
          [exact Hh | apply Nat.le_refl | intros R'; contradiction].
    + destruct C as [-> Hh].
      apply (K []); [exact Hh | apply Nat.le_0_l | reflexivity].
  - intros V R. apply runTask_total; assumption.
  - intros e w' E. apply runTask_throws in E.
    destruct E as (_ & -> & _ & E). split; [reflexivity|].
    intros [V R]. unfold run_date_valid, next_run_in_range in *.
    destruct (trigger_type task).
    + apply E, R. reflexivity.
    + exact E.
    + destruct (V eq_refl) as [t D]. congruence.
  - intros final w' N.
    destruct (normaliseTask_ok _ _ _ _ N) as (_ & _ & _ & _ & Nh & _).
    split; [exact Nh|].
    unfold old_history. rewrite Nh.
    destruct (history task) as [h|]; cbn [option_map length].
    + apply firstn_le_length.
    + apply Nat.le_0_l.
  - intros V R. apply normaliseTask_total; assumption.
Qed.

Lemma determineStatus_date_success (task : TaskRecord) (now : Z) :
  trigger_type task = date -> enabled task = true ->
  status task <> running -> newest_is_success task = true ->
  determineStatus task now = completed.
Proof.
  intros T E S N. apply TaskStatus_eqb_neq in S.
  unfold determineStatus. rewrite T, E, S, N. reflexivity.
Qed.

(** C2, as the code has it.  A successful fire of a date task leaves the
    task completed and disabled, without a next run and with a success
    as its newest history entry, in memory and in its row; and a fire
    whose action succeeds is a successful fire.  Normalisation completes
    and disables a date task whose newest history entry is a success
    when the task is enabled and not running.  A task that is disabled is
    given paused, or keeps completed, and a task that is enabled and
    running stays running, whatever the history. *)
Theorem date_task_completes (self : TaskScheduler) (task : TaskRecord)
    (w : World) :
  trigger_type task = date ->
  let now := clock (clock_reads w) in
  (forall r final w',
     runTask self task w = (Ok (r, final), w') -> success r = true ->
     status final = completed
     /\ enabled final = false
     /\ next_run final = None
     /\ (exists entry,
           hd_error (old_history final) = Some entry
           /\ entry_status entry = run_success)
     /\ exists row,
          find_row (storage w') (id task) = Some row
          /\ row_status row = completed
          /\ row_enabled row = 0
          /\ row_next_run row = None)
  /\ (forall answer,
        fst (run_action self
               (mark_running task (Date_iso (clock (clock_reads w))))
               (running_world task w))
        = Ok answer ->
        exists final w',
          runTask self task w
          = (Ok ({| success := true; result_message := answer |}, final), w'))
  /\ (enabled task = true -> status task <> running ->
      newest_is_success task = true ->
      determineStatus task now = completed
      /\ exists final w',
           normaliseTask task w = (Ok final, w')
           /\ status final = completed
           /\ enabled final = false)
  /\ (enabled task = false ->
      let kept := if TaskStatus_eqb (status task) completed
                  then completed else paused in
      determineStatus task now = kept
      /\ exists final w',
           normaliseTask task w = (Ok final, w')
           /\ status final = kept
           /\ enabled final = false)
  /\ (enabled task = true -> status task = running ->
      determineStatus task now = running
      /\ (forall final w',
            normaliseTask task w = (Ok final, w') ->
            status final = running /\ enabled final = true)
      /\ (run_date_valid task ->
          exists final w', normaliseTask task w = (Ok final, w'))).
Proof.
  intros T now.
  assert (Rg : forall fromDate, next_run_in_range task fromDate)
    by (intros fromDate X; rewrite T in X; discriminate X).
  assert (Nx : trigger_type task <> date ->
               exists next,
                 computeNextRun (set_status task scheduled)
                   (clock (clock_reads w)) = Ok next)
    by (intros X; congruence).
  assert (Nm : forall st,
            determineStatus task now = st ->
            (st = completed \/ enabled task = false) ->
            exists final w',
              normaliseTask task w = (Ok final, w')
              /\ status final = st
              /\ enabled final
                 = if TaskStatus_eqb st completed then false
                   else enabled task).
  { intros st D C.
    assert (En : normalised_enabled task now
                 = if TaskStatus_eqb st completed then false
                   else enabled task)
      by (unfold normalised_enabled; rewrite T, D; reflexivity).
    destruct (normaliseTask_returns task w (next_run task))
      as (final & w' & N).
    { fold now. rewrite D, En. unfold computeNextRun.
      cbn [enabled status set_enabled set_status next_run].
      destruct C as [->|C]; [reflexivity|].
      rewrite C. destruct (TaskStatus_eqb st completed); reflexivity. }
    exists final, w'. split; [exact N|].
    destruct (normaliseTask_ok _ _ _ _ N)
      as (_ & _ & _ & _ & _ & Ns & Ne & _).
    fold now in Ns, Ne. rewrite Ns, Ne, D, En. split; reflexivity. }
  split; [|split; [|split; [|split]]].
  - intros r final w' E S.
    pose proof (runTask_result self task w w' r final E (Rg _)) as A.
    rewrite S in A.
    destruct (runTask_success self task w (result_message r) A Nx)
      as (final' & E' & I & _ & _ & Hh & D).
    rewrite E in E'. apply pair_Ok_inv in E'. destruct E' as [E1 ->].
    assert (final' = final) by congruence. subst final'.
    rewrite T in D. destruct D as (Ds & De & Dn).
    refine (conj Ds (conj De (conj Dn (conj _ _)))).
    + eexists. unfold old_history. rewrite Hh. split; reflexivity.
    + exists (row_of_task final). cbn [storage]. rewrite <- I.
      split; [apply find_row_upsert|].
      cbn [row_of_task row_status row_enabled row_next_run].
      rewrite Ds, De, Dn. repeat split.
  - intros answer A.
    destruct (runTask_success self task w answer A Nx) as (final & E & _).
    eexists. eexists. exact E.
  - intros E S N.
    pose proof (determineStatus_date_success task now T E S N) as D.
    split; [exact D|].
    destruct (Nm completed D (or_introl eq_refl)) as (final & w' & X).
    exists final, w'. exact X.
  - intros E kept.
    assert (D : determineStatus task now = kept)
      by (unfold determineStatus; rewrite E; reflexivity).
    split; [exact D|].
    destruct (Nm kept D (or_intror E)) as (final & w' & X & Y & Z).
    exists final, w'. split; [exact X|]. split; [exact Y|].
    rewrite Z, E. destruct (TaskStatus_eqb kept completed); reflexivity.
  - intros E S.
    assert (D : determineStatus task now = running)
      by (unfold determineStatus; rewrite E, S; reflexivity).
    split; [exact D|]. split.
    + intros final w' N.
      destruct (normaliseTask_ok _ _ _ _ N)
        as (_ & _ & _ & _ & _ & Ns & Ne & _).
      fold now in Ns, Ne. rewrite Ns, Ne. unfold normalised_enabled.
      rewrite T, D, E. split; reflexivity.
    + intros V. apply normaliseTask_total; [exact V | apply Rg].
Qed.

Lemma Math_round_Z (z : Z) : Math_round (inject_Z z) = z.
Proof.
  destruct (Math_round_nearest (inject_Z z)) as [L U].
  revert L U. generalize (Math_round (inject_Z z)). intros r L U.
  unfold Qlt, Qle, Qminus, Qplus, Qopp, inject_Z in L, U.
  cbn [Qnum Qden] in L, U. lia.
Qed.

(** C5.  When the sampling request of a fire times out, the message of
    the [catch] block is the timeout text.  Its number is the configured
    timeout divided by 1000, as a double, rounded to the nearest integer
    with halves going up (0 for 50 ms, 3 for 2500 ms, the seconds
    themselves for whole seconds); it is printed as its decimal numeral
    up to 2^53 and, beyond, the way JavaScript prints a large double.
    When the next run can be computed from the instant of the failure,
    the fire returns a failure with that text: [last_status] and [status]
    are error, [last_message] is the text, an error entry with the text
    is the newest of the history and [next_run] is the next run computed
    at the failure, in memory and in the store.  When it cannot, the fire
    throws the RangeError of the next run; it can for a task whose
    [run_date] names an instant and whose next run is in the range of
    dates. *)
Theorem sampling_timeout (self : TaskScheduler) (server : Server)
    (task : TaskRecord) (w : World) (e : JsError) :
  mcpServer self = Some server ->
  truthy_opt_string (agent_prompt task) = true ->
  server (template (agent_prompt task)) (S (clock_reads w)) = Throw e ->
  err_code e = Some (-32001) ->
  let quotient := Number_div (samplingTimeoutMs self) 1000 in
  let secs := Math_round quotient in
  let numeral :=
    if Z.abs secs <=? 2 ^ 53 then NilZero.string_of_int (Z.to_int secs)
    else Number_toString_large secs in
  let text := "Sampling request timed out after " ++ numeral ++ "s" in
  let failure := clock (S (clock_reads w)) in
  errorMessage_of self e = text
  /\ (quotient - (1 # 2) < inject_Z secs)%Q
  /\ (inject_Z secs <= quotient + (1 # 2))%Q
  /\ (forall k,
        (samplingTimeoutMs self == inject_Z (1000 * k))%Q ->
        Z.abs k <= 2 ^ 53 ->
        secs = k /\ numeral = NilZero.string_of_int (Z.to_int k))
  /\ ((samplingTimeoutMs self == 50)%Q ->
      text = "Sampling request timed out after 0s")
  /\ ((samplingTimeoutMs self == 2500)%Q ->
      text = "Sampling request timed out after 3s")
  /\ ((samplingTimeoutMs self == 180000)%Q ->
      text = "Sampling request timed out after 180s")
  /\ match computeNextRun (set_status task error) failure with
     | Ok next =>
         exists final w',
           runTask self task w
           = (Ok ({| success := false; result_message := text |}, final), w')
           /\ last_status final = Some last_error
           /\ last_message final = Some text
           /\ status final = error
           /\ history final
              = Some (firstn 10
                        ({| run_at := Date_iso (clock (clock_reads w));
                            entry_status := run_error;
                            message := Some text |}
                         :: old_history task))
           /\ next_run final = next
           /\ find_row (storage w') (id task) = Some (row_of_task final)
           /\ stored_history (storage w') (id task) = old_history final
     | Throw thrown =>
         thrown = RangeError_invalid_time
         /\ exists w', runTask self task w = (Throw thrown, w')
     end
  /\ (run_date_valid task -> next_run_in_range task failure ->
      exists next, computeNextRun (set_status task error) failure = Ok next).
Proof.
  intros Sv P R C quotient secs numeral text failure.
  assert (X : errorMessage_of self e = text).
  { unfold errorMessage_of. rewrite C. reflexivity. }
  destruct (Math_round_nearest quotient) as [L U].
  assert (Q : forall ms : Q,
            (samplingTimeoutMs self == ms)%Q ->
            text
            = "Sampling request timed out after "
              ++ (if Z.abs (Math_round (Number_div ms 1000)) <=? 2 ^ 53
                  then NilZero.string_of_int
                         (Z.to_int (Math_round (Number_div ms 1000)))
                  else Number_toString_large
                         (Math_round (Number_div ms 1000)))
              ++ "s").
  { intros ms E. unfold text, numeral, secs, quotient.
    rewrite (Number_div_comp _ ms 1000 1000 E (Qeq_refl _)). reflexivity. }
  split; [exact X|]. split; [exact L|]. split; [exact U|].
  split; [|split; [|split; [|split; [|split]]]].
  - intros k E B.
    assert (K : secs = k).
    { unfold secs, quotient, Number_div.
      rewrite (round_double_comp _ (inject_Z k)).
      - rewrite (round_double_Z k B). apply Math_round_Z.
      - rewrite E, inject_Z_mult. field. }
    split; [exact K|]. unfold numeral. rewrite K.
    rewrite (proj2 (Z.leb_le _ _) B). reflexivity.
  - intros E. rewrite (Q _ E). vm_compute. reflexivity.
  - intros E. rewrite (Q _ E). vm_compute. reflexivity.
  - intros E. rewrite (Q _ E). vm_compute. reflexivity.
  - assert (A : fst (run_action self
                       (mark_running task (Date_iso (clock (clock_reads w))))
                       (running_world task w)) = Throw e).
    { unfold run_action.
      change (agent_prompt (mark_running task
                              (Date_iso (clock (clock_reads w)))))
        with (agent_prompt task).
      rewrite P, Sv. unfold bind. cbn [running_world clock_reads].
      rewrite R. reflexivity. }
    fold failure.
    destruct (computeNextRun (set_status task error) failure)
      as [next|thrown] eqn:N.
    + destruct (runTask_failure self task w e next A N)
        as (final & E & I & Ls & Lm & St & _ & Hh & Nr).
      rewrite X in *.
      exists final. eexists. split; [exact E|].
      cbn [storage]. rewrite <- I.
      assert (OH : old_history final
                   = firstn HISTORY_LIMIT
                       ({| run_at := Date_iso (clock (clock_reads w));
                           entry_status := run_error;
                           message := Some text |}
                        :: old_history task))
        by (unfold old_history at 1; rewrite Hh; reflexivity).
      refine (conj Ls (conj Lm (conj St (conj Hh (conj Nr
               (conj (find_row_upsert _ _) _)))))).
      rewrite OH. apply stored_history_upsert, Hh.
    + split.
      * apply computeNextRun_throws in N. exact (proj1 N).
      * eexists. apply (runTask_failure_throws self task w e thrown A N).
  - intros V Rg. apply computeNextRun_in_range; assumption.
Qed.

Lemma clearTaskHistory_eq (taskId : string) (w : World) :
  clearTaskHistory taskId w
  = match get (storage w) taskId with
    | None => (Throw (Error ("Task not found: " ++ taskId)), w)
    | Some task =>
        let cleared :=
          set_updated_at
            (set_last_status
               (set_last_message (set_history task (Some [])) None) None)
            (Date_iso (clock (clock_reads w))) in
        (Ok cleared,
         {| storage := upsert (storage w) cleared;
            clock_reads := S (clock_reads w) |})
    end.
Proof.
  unfold clearTaskHistory, bind, storage_get, storage_upsert, new_Date, throw,
    ret.
  destruct (get (storage w) taskId); reflexivity.
Qed.

(** C8, where the code falls short of it.  The [clear_task_history] tool
    goes through [clearTaskHistory] of the scheduler: it empties the
    history of the task, sets [last_status] and [last_message] to null and
    stamps [updated_at], but it writes [last_run] back as it found it,
    where [clearHistory] of the store sets it to null. *)
Theorem clear_task_history_keeps_last_run (args : JsObj) (s : string)
    (task : TaskRecord) (w : World) :
  js_get "task_id" args = JsString s ->
  String.length (trim s) <> 0%nat ->
  get (storage w) (trim s) = Some task ->
  exists cleared w' row',
    clear_task_history args w = (Ok (ToolSuccess cleared), w')
    /\ find_row (storage w') (trim s) = Some row'
    /\ last_run cleared = last_run task
    /\ row_last_run row' = last_run task
    /\ stored_history (storage w') (trim s) = []
    /\ row_last_status row' = None
    /\ row_last_message row' = None
    /\ row_updated_at row' = Date_iso (clock (clock_reads w))
    /\ row_next_run row' = next_run task
    /\ exists row'',
         find_row (fst (clearHistory (storage w) (trim s)
                          (clock (clock_reads w)))) (trim s)
         = Some row''
         /\ row_last_run row'' = None.
Proof.
  intros A L G. apply Nat.eqb_neq in L.
  destruct (get_some _ _ _ G) as (row & entries & F & Et & I).
  unfold clear_task_history, try_catch, bind, lift, ret.
  rewrite A, L, clearTaskHistory_eq, G. cbv zeta.
  set (cleared :=
         set_updated_at
           (set_last_status
              (set_last_message (set_history task (Some [])) None) None)
           (Date_iso (clock (clock_reads w)))).
  assert (T : trim s = id cleared) by (symmetry; exact I).
  assert (FR : find_row (upsert (storage w) cleared) (trim s)
               = Some (row_of_task cleared))
    by (rewrite T; apply find_row_upsert).
  assert (SH : stored_history (upsert (storage w) cleared) (trim s) = [])
    by (rewrite T; apply stored_history_upsert; reflexivity).
  destruct (clearHistory_row (storage w) (trim s) (clock (clock_reads w))
              row F) as (_ & row'' & F'' & R'' & _).
  exists cleared. eexists. exists (row_of_task cleared).
  split; [reflexivity|]. cbn [storage].
  refine (conj FR (conj eq_refl (conj eq_refl (conj SH (conj eq_refl
           (conj eq_refl (conj eq_refl (conj eq_refl _)))))))).
  exists row''. split; assumption.
Qed.

End FireProperties.

(** ** Invariants of the store *)

Section StoreInvariant.

Context `{Host}.

Lemma insert_or_update_ids (row : TaskRow) (rows : list TaskRow) :
  NoDup (map row_id rows) ->
  NoDup (map row_id (insert_or_update row rows)).
Proof.
  intros D. unfold insert_or_update.
  destruct (existsb _ rows) eqn:E.
  - assert (X : map row_id
                  (map (fun r => if String.eqb (row_id r) (row_id row)
                                 then row else r) rows)
                = map row_id rows).
    { rewrite map_map. apply map_ext. intros r.
      destruct (String.eqb (row_id r) (row_id row)) eqn:R; [|reflexivity].
      apply String.eqb_eq in R. congruence. }
    rewrite X. exact D.
  - rewrite map_app. cbn [map].
    apply (Permutation_NoDup (l := row_id row :: map row_id rows)).
    + apply Permutation_cons_append.
    + constructor; [|exact D]. intros I.
      apply in_map_iff in I. destruct I as [r [Er Ir]].
      assert (Y : existsb (fun r => String.eqb (row_id r) (row_id row)) rows
                  = true).
      { apply existsb_exists. exists r. split; [exact Ir|].
        apply String.eqb_eq, Er. }
      congruence.
Qed.

(** The ids of the rows stay distinct under [upsert]; they are distinct in
    the empty store. *)
Lemma unique_ids_upsert (db : Store) (task : TaskRecord) :
  unique_ids db -> unique_ids (upsert db task).
Proof.
  unfold unique_ids. rewrite tasks_upsert. apply insert_or_update_ids.
Qed.

Lemma unique_ids_empty : unique_ids empty_store.
Proof. constructor. Qed.

End StoreInvariant.

(** * Worked instances

    The theorems above, applied to the small host of [Sample]. *)

Module Instances.

Import Sample.

Local Open Scope Q_scope.
Local Open Scope Z_scope.

(** The planned fire of the heartbeat, 00:00:30, is kept at 00:00:00; at
    00:00:30 the next one is 30 seconds later.  An interval of 0.00199995
    seconds from 00:00:00 gives 00:00:00.002, the double sum being
    1767225600002; an interval of 1e12 days throws; an interval without a
    duration has no next run. *)
Lemma interval_next_run_witness :
  computeNextRun heartbeat 1767225600000 = Ok (next_run heartbeat)
  /\ computeNextRun heartbeat 1767225630000
     = Ok (Some "2026-01-01T00:01:00.000Z")
  /\ computeNextRun fine 1767225600000
     = Ok (Some "2026-01-01T00:00:00.002Z")
  /\ computeNextRun far 1767225600000 = Throw RangeError_invalid_time
  /\ computeNextRun idle 1767225600000 = Ok None.
Proof.
  assert (S : status heartbeat <> completed) by discriminate.
  assert (N : forall task fromDate,
            next_run task = None ->
            forall planned,
              planned_instant task = Some planned -> planned <= fromDate).
  { intros task fromDate E planned P. unfold planned_instant in P.
    rewrite E in P. discriminate P. }
  split; [|split; [|split; [|split]]].
  - exact (proj2 (proj1 (interval_next_run heartbeat 1767225600000
                           eq_refl eq_refl S)
                    1767225630000 eq_refl eq_refl) eq_refl).
  - refine (proj1 (proj1 (proj2 (interval_next_run heartbeat 1767225630000
                                   eq_refl eq_refl S)) _) eq_refl _).
    + intros planned P. vm_compute in P. injection P as <-. discriminate.
    + vm_compute. discriminate.
  - refine (proj1 (proj1 (proj2 (interval_next_run fine 1767225600000
                                   eq_refl eq_refl S))
                     (N fine _ eq_refl)) _ _).
    + vm_compute. reflexivity.
    + vm_compute. discriminate.
  - refine (proj1 (proj2 (proj1 (proj2 (interval_next_run far 1767225600000
                                          eq_refl eq_refl S))
                            (N far _ eq_refl))) _ _).
    + vm_compute. reflexivity.
    + apply Qlt_not_le. vm_compute. reflexivity.
  - refine (proj2 (proj2 (proj1 (proj2 (interval_next_run idle 1767225600000
                                          eq_refl eq_refl S))
                            (N idle _ eq_refl))) _).
    vm_compute. discriminate.
Defined.

(** An enabled, scheduled interval task without a planned fire need not
    get the reference instant plus its duration: with no duration it gets
    no next run, and with a duration of 1e12 days the computation throws. *)
Lemma interval_without_next_run :
  (trigger_type idle = interval /\ enabled idle = true
   /\ status idle <> completed /\ planned_instant idle = None
   /\ (computeIntervalMs (config_interval (trigger_config idle)) == 0)%Q
   /\ computeNextRun idle 1767225600000 = Ok None
   /\ computeNextRun idle 1767225600000
      <> Ok (Some (Date_iso (1767225600000 + 0))))
  /\ (trigger_type far = interval /\ enabled far = true
      /\ status far <> completed /\ planned_instant far = None
      /\ (computeIntervalMs (config_interval (trigger_config far))
          == inject_Z (10 ^ 12 * 86400000))%Q
      /\ computeNextRun far 1767225600000 = Throw RangeError_invalid_time).
Proof.
  split.
  - repeat split; try reflexivity; discriminate.
  - repeat split; try reflexivity; try discriminate.
Qed.

(** A finished date task that was enabled again is completed and disabled
    by normalisation; a reminder that fires with nothing to do fires
    successfully; the paused reminder is given paused and the running one
    stays running, each with a success as its newest entry. *)
Lemma date_task_completes_witness :
  (exists final w',
     runTask alone reminder (with_task reminder)
     = (Ok ({| success := true;
               result_message :=
                 "Task executed: reminder (no action configured)" |}, final),
        w'))
  /\ (exists final w',
        normaliseTask fired_reminder start = (Ok final, w')
        /\ status final = completed
        /\ enabled final = false)
  /\ (exists final w',
        normaliseTask paused_reminder start = (Ok final, w')
        /\ status final = paused
        /\ enabled final = false)
  /\ (exists final w',
        normaliseTask running_reminder start = (Ok final, w')
        /\ status final = running
        /\ enabled final = true).
Proof.
  assert (S : status fired_reminder <> running) by discriminate.
  split; [|split; [|split]].
  - exact (proj1 (proj2 (date_task_completes alone reminder
                           (with_task reminder) eq_refl))
             "Task executed: reminder (no action configured)" eq_refl).
  - exact (proj2 (proj1 (proj2 (proj2 (date_task_completes alone
                                         fired_reminder start eq_refl)))
                    eq_refl S eq_refl)).
  - exact (proj2 (proj1 (proj2 (proj2 (proj2 (date_task_completes alone
                                                paused_reminder start
                                                eq_refl))))
                    eq_refl)).
  - destruct (proj2 (proj2 (proj2 (proj2 (date_task_completes alone
                                            running_reminder start
                                            eq_refl))))
                eq_refl eq_refl) as (_ & K & T).
    destruct T as (final & w' & N).
    { intros _. exists 1767312000000. reflexivity. }
    exists final, w'. split; [exact N|]. exact (K final w' N).
Defined.

(** A date task that is paused stays paused under normalisation, though
    its newest history entry is a success. *)
Lemma paused_date_task_not_completed :
  trigger_type paused_reminder = date
  /\ newest_is_success paused_reminder = true
  /\ exists final w',
       normaliseTask paused_reminder start = (Ok final, w')
       /\ status final = paused
       /\ status final <> completed.
Proof.
  split; [reflexivity|]. split; [reflexivity|].
  eexists. eexists. split; [vm_compute; reflexivity|].
  split; [reflexivity | discriminate].
Qed.


(** A delay of 0.00199995 seconds from 00:00:00 gives 00:00:00.002: the
    sum of the two doubles is 1767225600002. *)
Lemma date_validation_rounds :
  validateDateConfig [("delay_seconds", JsNumber fine_seconds)] 1767225600000
  = Ok {| run_date := "2026-01-01T00:00:00.002Z" |}.
Proof. vm_compute. reflexivity. Qed.

(** The busy heartbeat fires with ten runs behind it: the new entry is
    first, the history still has ten entries, which are its history rows,
    and the oldest run is gone.  Normalisation cuts the twelve entries of
    the crowded heartbeat to the ten newest. *)
Lemma history_is_bounded_witness :
  (exists r final w',
     runTask alone busy (with_task busy) = (Ok (r, final), w'))
  /\ hd_error (old_history busy_after)
     = Some {| run_at := "2026-01-01T00:00:00.000Z";
               entry_status := run_success;
               message := Some (result_message busy_result) |}
  /\ (length (old_history busy_after) <= 10)%nat
  /\ stored_history (storage after_busy_ran) (id busy)
     = old_history busy_after
  /\ history busy_after
     = Some ({| run_at := "2026-01-01T00:00:00.000Z";
                entry_status := run_success;
                message := Some (result_message busy_result) |}
             :: past_runs 9)
  /\ (exists final w', normaliseTask crowded start = (Ok final, w'))
  /\ history crowded_read = Some (past_runs 10).
Proof.
  assert (V : forall task, trigger_type task = interval ->
                           run_date_valid task)
    by (intros task T X; rewrite T in X; discriminate X).
  assert (R0 : next_run_in_range busy (clock 0))
    by (intros _; vm_compute; discriminate).
  assert (R1 : next_run_in_range busy (clock 1))
    by (intros _; vm_compute; discriminate).
  assert (R2 : next_run_in_range crowded (clock 0))
    by (intros _; vm_compute; discriminate).
  pose proof (history_is_bounded alone busy (with_task busy)) as B.
  pose proof (history_is_bounded alone crowded start) as C.
  cbv zeta in B, C.
  destruct B as (_ & Bf & Bt & _).
  destruct C as (_ & _ & _ & _ & Cn & Ct).
  assert (E : runTask alone busy (with_task busy)
              = (Ok (busy_result, busy_after), after_busy_ran))
    by (vm_compute; reflexivity).
  assert (N : normaliseTask crowded start
              = (Ok crowded_read, after_crowded_read))
    by (vm_compute; reflexivity).
  destruct (Bf busy_result busy_after after_busy_ran E)
    as (B1 & B2 & B3 & _ & B5).
  split; [exact (Bt (V busy eq_refl) R1)|].
  split; [exact B1|]. split; [exact B2|]. split; [exact B3|].
  split; [exact (B5 R0)|].
  split; [exact (Ct (V crowded eq_refl) R2)|].
  exact (proj1 (Cn crowded_read after_crowded_read N)).
Defined.

(** With a timeout of 50 ms and a peer that does not answer, the fire of
    the heartbeat fails with the text for 0 seconds, and the planned fire
    of 00:00:30 is kept as its next run.  With a timeout of 1e24 ms the
    text has the seconds in exponent notation, and with one of 2^60
    seconds it has their sixteen digits and three zeros. *)
Lemma sampling_timeout_witness :
  errorMessage_of impatient timed_out = "Sampling request timed out after 0s"
  /\ (exists final w',
        runTask impatient heartbeat (with_task heartbeat)
        = (Ok ({| success := false;
                  result_message := "Sampling request timed out after 0s" |},
               final), w')
        /\ last_status final = Some last_error
        /\ last_message final = Some "Sampling request timed out after 0s"
        /\ next_run final = Some "2026-01-01T00:00:30.000Z")
  /\ errorMessage_of patient timed_out
     = "Sampling request timed out after 1e+21s"
  /\ errorMessage_of slow timed_out
     = "Sampling request timed out after 1152921504606847000s".
Proof.
  pose proof (sampling_timeout impatient silent_peer heartbeat
                (with_task heartbeat) timed_out eq_refl eq_refl eq_refl
                eq_refl) as P.
  pose proof (sampling_timeout patient silent_peer heartbeat
                (with_task heartbeat) timed_out eq_refl eq_refl eq_refl
                eq_refl) as L.
  pose proof (sampling_timeout slow silent_peer heartbeat
                (with_task heartbeat) timed_out eq_refl eq_refl eq_refl
                eq_refl) as G.
  cbv zeta in P, L, G.
  destruct P as (X & _ & _ & _ & T & _ & _ & M & _).
  destruct L as (Y & _).
  destruct G as (W & _).
  assert (N : computeNextRun (set_status heartbeat error)
                (clock (S (clock_reads (with_task heartbeat))))
              = Ok (Some "2026-01-01T00:00:30.000Z"))
    by (vm_compute; reflexivity).
  rewrite N in M. rewrite (T (Qeq_refl _)) in X, M.
  destruct M as (final & w' & E & Ls & Lm & _ & _ & Nr & _).
  split; [exact X|]. split.
  - exists final, w'.
    split; [exact E|]. split; [exact Ls|]. split; [exact Lm | exact Nr].
  - split.
    + rewrite Y. vm_compute. reflexivity.
    + rewrite W. vm_compute. reflexivity.
Defined.

(** An unknown key is refused; 30 seconds are accepted. *)
Lemma interval_validation_witness :
  (exists e, validateIntervalConfig [("secs", JsNumber 30)] = Throw e)
  /\ (0 < computeIntervalMs
            {| seconds := Some 30%Q; minutes := None; hours := None;
               days := None |})%Q.
Proof.
  split.
  - apply (proj1 (interval_validation [("secs", JsNumber 30)])).
    exists "secs". split; [left; reflexivity|].
    intros [E|[E|[E|[E|[]]]]]; discriminate E.
  - exact (proj2 (proj2 (proj2 (proj2 (proj2 (proj2
             (proj2 (proj2 (proj2 (interval_validation
                                     [("seconds", JsNumber 30)])))
                _ eq_refl))))))).
Defined.

(** [updateStatus] with an empty patch at 00:01:00 leaves the row of the
    heartbeat with the [updated_at] it had, 00:00:00. *)
Lemma empty_patch_keeps_updated_at :
  exists row',
    find_row (updateStatus (storage (with_task heartbeat)) (id heartbeat)
                no_patch 1767225660000)
             (id heartbeat)
    = Some row'
    /\ row_updated_at row' = "2026-01-01T00:00:00.000Z"
    /\ row_updated_at row' <> Date_iso 1767225660000.
Proof.
  eexists. split; [vm_compute; reflexivity|].
  split; [reflexivity | vm_compute; discriminate].
Qed.

(** A patch with [next_run] writes it and stamps the row; the empty patch
    changes nothing. *)
Lemma updateStatus_frame_witness :
  updateStatus (storage (with_task heartbeat)) (id heartbeat) no_patch
    1767225660000
  = storage (with_task heartbeat)
  /\ exists row',
       find_row (updateStatus (storage (with_task heartbeat)) (id heartbeat)
                   next_run_patch 1767225660000)
                (id heartbeat)
       = Some row'
       /\ row_next_run row' = Some "2026-01-01T00:01:00.000Z"
       /\ row_updated_at row' = "2026-01-01T00:01:00.000Z"
       /\ row_status row' = scheduled.
Proof.
  split.
  - exact (proj1 (updateStatus_frame (storage (with_task heartbeat))
                    (id heartbeat) no_patch 1767225660000) eq_refl).
  - assert (N : patch_fields next_run_patch <> 0%nat) by discriminate.
    destruct (proj1 (proj2 (updateStatus_frame (storage (with_task heartbeat))
                              (id heartbeat) next_run_patch 1767225660000))
                N (row_of_task heartbeat) eq_refl)
      as (row' & F & _ & _ & _ & Wn & U & Fx).
    exists row'. split; [exact F|]. split; [exact Wn|]. split; [exact U|].
    destruct Fx as (_ & _ & _ & _ & _ & _ & _ & _ & Fs & _).
    symmetry. exact Fs.
Defined.

(** After the reminder ran at 00:00:00, [clear_task_history] answers with
    a task, and leaves a row, whose [last_run] is still 00:00:00. *)
Lemma clear_task_history_keeps_last_run_witness :
  exists cleared w' row',
    clear_task_history [("task_id", JsString " task-1767225600001-k3x9q2a ")]
      after_reminder_ran
    = (Ok (ToolSuccess cleared), w')
    /\ find_row (storage w') "task-1767225600001-k3x9q2a" = Some row'
    /\ last_run cleared = Some "2026-01-01T00:00:00.000Z"
    /\ row_last_run row' = Some "2026-01-01T00:00:00.000Z".
Proof.
  assert (L : String.length (trim " task-1767225600001-k3x9q2a ") <> 0%nat)
    by (vm_compute; discriminate).
  destruct (clear_task_history_keeps_last_run
              [("task_id", JsString " task-1767225600001-k3x9q2a ")]
              " task-1767225600001-k3x9q2a " reminder_that_ran
              after_reminder_ran eq_refl L eq_refl)
    as (cleared & w' & row' & E & F & Lc & Lr & _).
  exists cleared, w', row'.
  split; [exact E|]. split; [exact F|]. split; [exact Lc | exact Lr].
Defined.

(** Writing the heartbeat twice shows as writing it once. *)
Lemma upsert_idempotent_witness :
  get (upsert (upsert empty_store heartbeat) heartbeat) (id heartbeat)
  = get (upsert empty_store heartbeat) (id heartbeat)
  /\ stored_history (upsert (storage after_reminder_ran) fired_reminder)
                    (id fired_reminder)
     = ran_once.
Proof.
  split.
  - exact (proj1 (upsert_idempotent empty_store heartbeat) (id heartbeat)).
  - exact (proj2 (proj2 (upsert_idempotent (storage after_reminder_ran)
                           fired_reminder))
             ran_once eq_refl).
Defined.


End Instances.
